(** * XMPP MUC gateway: membership registry and stanza builders

    A shallow embedding of [src/xmppjs/GatewayMUCMembership.ts] and of the
    stanza classes ([StzaBase], [StzaPresence] and its subclasses,
    [StzaMessage], [StzaMessageSubject], [StzaIqPing], [StzaIqDisco],
    [StzaIqDiscoInfo]) of matrix-appservice-purple, with the properties the
    specification states about them.

    Conventions of the embedding.
    - A JavaScript string is a Rocq [string]; each character stands for one
      code unit (the model covers code units below 256).
    - A JavaScript [Set<string>] is the list of its elements in insertion
      order (the order in which [forEach] and the spread operator visit it).
    - A JavaScript [Set] of objects compares its elements by reference.  In
      the registry every object is created by the operation that inserts it
      and lives in exactly one room, so a reference is modelled as the
      position of the object in the room's set; in-place mutation of the
      object is an update at that position.
    - A thrown [TypeError] is the [None] of the [option] monad. *)

From stdpp Require Import base option list gmap strings.
From Stdlib Require Import Ascii.
From Stdlib Require String.

#[local] Open Scope stdpp_scope.

(** ** JavaScript strings *)

Module Js.

(** Truthiness of a string: only the empty string is falsy. *)
Definition truthy (s : string) : bool :=
  match s with
  | EmptyString => false
  | String _ _ => true
  end.

(** Truthiness of [string | undefined]. *)
Definition truthy_opt (o : option string) : bool :=
  match o with
  | None => false
  | Some s => truthy s
  end.

(** [occurs c s]: the code unit [c] occurs in [s]. *)
Fixpoint occurs (c : ascii) (s : string) : bool :=
  match s with
  | EmptyString => false
  | String a r => if Ascii.eqb a c then true else occurs c r
  end.

(** [break c s] cuts [s] at the first occurrence of [c], as
    [i = s.indexOf(c)] followed by [s.slice(0, i)] and [s.slice(i + 1)];
    [None] when [indexOf] answers [-1]. *)
Fixpoint break (c : ascii) (s : string) : option (string * string) :=
  match s with
  | EmptyString => None
  | String a r =>
      if Ascii.eqb a c then Some (EmptyString, r)
      else match break c r with
           | Some (x, y) => Some (String a x, y)
           | None => None
           end
  end.

(** [Array.prototype.join] *)
Fixpoint join (sep : string) (l : list string) : string :=
  match l with
  | [] => EmptyString
  | [x] => x
  | x :: r => x +:+ sep +:+ join sep r
  end.

End Js.

(** ** The [@xmpp/jid] package

    [JID] objects and the parser [jid(string)] come from the external package
    [@xmpp/jid]; the registry uses the accessors [local], [domain],
    [resource], the method [toString] and the parser.  The model below follows
    the package: the parser cuts the resource at the first ['/'] and the local
    part at the first ['@'] of what is left, the constructor throws
    [TypeError] on an empty domain, and [toString] leaves out an empty local
    part or resource.  The package also normalises the local part and the
    domain (case folding, XEP-0106 escaping); the model takes the parts as
    already normalised. *)

Module Jid.

Record JID := mkJID { local : string; domain : string; resource : string }.

#[global] Instance JID_eq_dec : EqDecision JID.
Proof. solve_decision. Defined.

(** [new JID(local, domain, resource)] *)
Definition new_JID (l : option string) (d : string) (r : option string)
  : option JID :=
  if Js.truthy d
  then Some (mkJID (default EmptyString l) d (default EmptyString r))
  else None.

(** [jid(s)] on a string: the package's [parse]. *)
Definition jid (s : string) : option JID :=
  let '(s1, res) :=
    match Js.break "/"%char s with
    | Some (a, b) => (a, Some b)
    | None => (s, None)
    end in
  let '(loc, s2) :=
    match Js.break "@"%char s1 with
    | Some (a, b) => (Some a, b)
    | None => (None, s1)
    end in
  new_JID loc s2 res.

(** [JID.prototype.toString] *)
Definition toString (j : JID) : string :=
  let s := domain j in
  let s := if Js.truthy (local j) then local j +:+ "@" +:+ s else s in
  if Js.truthy (resource j) then s +:+ "/" +:+ resource j else s.

(** The template [`${j.local}@${j.domain}`]. *)
Definition stripped (j : JID) : string := local j +:+ "@" +:+ domain j.

(** The fields of a parsed address: no ['@'] or ['/'] in the local part, a
    non-empty domain without ['/']. *)
Definition wf (j : JID) : Prop :=
  Js.occurs "@"%char (local j) = false ∧ Js.occurs "/"%char (local j) = false ∧
  Js.occurs "/"%char (domain j) = false ∧ domain j ≠ EmptyString.

End Jid.
Export Jid.

(** ** JavaScript [Set<string>] in insertion order *)

Module JSSet.

(** [s.add(x)] *)
Definition add (x : string) (s : list string) : list string :=
  if decide (x ∈ s) then s else s ++ [x].

(** [s.delete(x)] (the set after the call) *)
Definition remove (x : string) (s : list string) : list string :=
  filter (λ y, y ≠ x) s.

(** [new Set(iterable)] *)
Definition of_list (l : list string) : list string :=
  foldl (λ s x, add x s) [] l.

End JSSet.

(** ** The membership registry ([GatewayMUCMembership]) *)

Record IGatewayMemberMatrix := mkMatrix {
  m_anonymousJid : JID;
  m_matrixId : string;
}.

Record IGatewayMemberXmpp := mkXmpp {
  x_anonymousJid : JID;
  x_matrixId : string;
  realJid : JID;
  devices : list string;
}.

(** [IGatewayMember], discriminated by its [type] field. *)
Inductive IGatewayMember :=
  | Matrix (m : IGatewayMemberMatrix)
  | Xmpp (x : IGatewayMemberXmpp).

Definition anonymousJid (u : IGatewayMember) : JID :=
  match u with
  | Matrix m => m_anonymousJid m
  | Xmpp x => x_anonymousJid x
  end.

Definition matrixId (u : IGatewayMember) : string :=
  match u with
  | Matrix m => m_matrixId m
  | Xmpp x => x_matrixId x
  end.

(** The type guards [s.type === "xmpp"] and [s.type === "matrix"], with the
    cast that follows them. *)
Definition as_xmpp (u : IGatewayMember) : option IGatewayMemberXmpp :=
  match u with
  | Xmpp x => Some x
  | Matrix _ => None
  end.

Definition as_matrix (u : IGatewayMember) : option IGatewayMemberMatrix :=
  match u with
  | Matrix m => Some m
  | Xmpp _ => None
  end.

#[global] Instance IGatewayMemberMatrix_eq_dec : EqDecision IGatewayMemberMatrix.
Proof. solve_decision. Defined.
#[global] Instance IGatewayMemberXmpp_eq_dec : EqDecision IGatewayMemberXmpp.
Proof. solve_decision. Defined.
#[global] Instance IGatewayMember_eq_dec : EqDecision IGatewayMember.
Proof. solve_decision. Defined.

(** A reference to a member object: its position in the room's set. *)
Definition ref := nat.

(** [members: Map<string, Set<IGatewayMember>>] *)
Abbreviation registry := (gmap string (list IGatewayMember)).

(** [Array.prototype.find] *)
Definition array_find {A} (P : A → Prop) `{∀ x, Decision (P x)} (l : list A)
  : option A :=
  snd <$> list_find P l.

Module Registry.

(** [this.members.get(chatName) || new Set()] *)
Definition room (st : registry) (chatName : string) : list IGatewayMember :=
  default [] (st !! chatName).

Definition hasMembershipForRoom (st : registry) (chatName : string) : bool :=
  bool_decide (is_Some (st !! chatName)).

Definition getMembers (st : registry) (chatName : string)
  : list (ref * IGatewayMember) :=
  imap pair (room st chatName).

(** [filter((s) => s.type === "xmpp") as IGatewayMemberXmpp[]] *)
Definition getXmppMembers (st : registry) (chatName : string)
  : list (ref * IGatewayMemberXmpp) :=
  omap (λ s, pair s.1 <$> as_xmpp s.2) (getMembers st chatName).

(** [filter((s) => s.type === "matrix") as IGatewayMemberMatrix[]] *)
Definition getMatrixMembers (st : registry) (chatName : string)
  : list (ref * IGatewayMemberMatrix) :=
  omap (λ s, pair s.1 <$> as_matrix s.2) (getMembers st chatName).

Definition getMemberByAnonJid (st : registry) (chatName anonJid : string)
  : option (ref * IGatewayMember) :=
  array_find (λ user, toString (anonymousJid user.2) = anonJid)
             (getMembers st chatName).

Definition getMemberByMatrixId (st : registry) (chatName mxid : string)
  : option (ref * IGatewayMember) :=
  array_find (λ user, matrixId user.2 = mxid) (getMembers st chatName).

Definition getMatrixMemberByMatrixId (st : registry) (chatName mxid : string)
  : option (ref * IGatewayMemberMatrix) :=
  array_find (λ user, m_matrixId user.2 = mxid) (getMatrixMembers st chatName).

(** [typeof(realJid) === "string" ? jid(realJid) : realJid] *)
Definition to_jid (rj : string + JID) : option JID :=
  match rj with
  | inl s => jid s
  | inr j => Some j
  end.

(** The argument is [string | JID]; a string is parsed first, which may
    throw. *)
Definition getXmppMemberByRealJid (st : registry) (chatName : string)
    (rj : string + JID) : option (option (ref * IGatewayMemberXmpp)) :=
  j ← to_jid rj;
  let strippedJid := Jid.stripped j in
  Some (array_find (λ user, toString (realJid user.2) = strippedJid)
                   (getXmppMembers st chatName)).

Definition getXmppMemberByMatrixId (st : registry) (chatName mxid : string)
  : option (ref * IGatewayMemberXmpp) :=
  array_find (λ user, x_matrixId user.2 = mxid) (getXmppMembers st chatName).

(** The two branches of [getXmppMembersDevices], selected by the
    load-time constant [FLAT_SUPPORTED]. *)
Definition getXmppMembersDevices (FLAT_SUPPORTED : bool) (st : registry)
    (chatName : string) : list string :=
  let arrays := map (λ u, devices u.2) (getXmppMembers st chatName) in
  if FLAT_SUPPORTED
  then JSSet.of_list (concat arrays)
  else JSSet.of_list (foldl (λ acc val, acc ++ val) [] arrays).

Definition addMatrixMember (st : registry) (chatName mxid : string)
    (anon : JID) : bool * registry :=
  match getMatrixMemberByMatrixId st chatName mxid with
  | Some _ => (false, st)
  | None =>
      let set := room st chatName in
      (true, <[chatName := set ++ [Matrix (mkMatrix anon mxid)]]> st)
  end.

(** [member.devices.add(d)] on the object behind reference [r]. *)
Definition devices_add (d : string) (u : IGatewayMember) : IGatewayMember :=
  match u with
  | Xmpp x => Xmpp (mkXmpp (x_anonymousJid x) (x_matrixId x) (realJid x)
                           (JSSet.add d (devices x)))
  | Matrix m => Matrix m
  end.

(** [member.devices.delete(d)] on the object behind reference [r]. *)
Definition devices_delete (d : string) (u : IGatewayMember) : IGatewayMember :=
  match u with
  | Xmpp x => Xmpp (mkXmpp (x_anonymousJid x) (x_matrixId x) (realJid x)
                           (JSSet.remove d (devices x)))
  | Matrix m => Matrix m
  end.

(** Mutation of the object behind [r], which lives in the set of
    [chatName]. *)
Definition mutate (f : IGatewayMember → IGatewayMember) (chatName : string)
    (r : ref) (st : registry) : registry :=
  alter (alter f r) chatName st.

Definition addXmppMember (st : registry) (chatName : string) (rj anon : JID)
    (mxid : string) : option (bool * registry) :=
  strippedDevice ← jid (Jid.stripped rj);
  member ← getXmppMemberByRealJid st chatName (inl (toString strippedDevice));
  match member with
  | Some (r, _) =>
      Some (false, mutate (devices_add (toString rj)) chatName r st)
  | None =>
      let set := room st chatName in
      Some (true,
            <[chatName := set ++ [Xmpp (mkXmpp anon mxid strippedDevice
                                               (JSSet.of_list [toString rj]))]]> st)
  end.

(** [set.delete(member)] for the member behind reference [r]: the answer
    and the registry after the call. *)
Definition set_delete (chatName : string) (r : ref) (st : registry)
  : bool * registry :=
  (bool_decide (r < length (room st chatName)),
   alter (delete r) chatName st).

Definition removeMatrixMember (st : registry) (chatName mxid : string)
  : bool * registry :=
  match getMatrixMemberByMatrixId st chatName mxid with
  | None => (false, st)
  | Some (r, _) =>
      match st !! chatName with
      | Some _ => set_delete chatName r st
      | None => (false, st)
      end
  end.

Definition removeXmppMember (st : registry) (chatName : string)
    (rj : string + JID) : option (bool * registry) :=
  j ← to_jid rj;
  member ← getXmppMemberByRealJid st chatName (inr j);
  match member with
  | None => Some (false, st)
  | Some (r, x) =>
      let finish (st : registry) :=
        match st !! chatName with
        | Some _ => set_delete chatName r st
        | None => (true, st)
        end in
      if Js.truthy (resource j) then
        let st1 := mutate (devices_delete (toString j)) chatName r st in
        if bool_decide (length (JSSet.remove (toString j) (devices x)) ≠ 0)
        then Some (false, st1)
        else Some (finish st1)
      else Some (finish st)
  end.

(** *** Sequences of registry operations *)

Inductive op :=
  | AddMatrixMember (chatName mxid : string) (anon : JID)
  | AddXmppMember (chatName : string) (rj anon : JID) (mxid : string)
  | RemoveMatrixMember (chatName mxid : string)
  | RemoveXmppMember (chatName : string) (rj : string + JID).

(** One call on the registry object.  A call that throws has not touched the
    registry: the parser is called before any update. *)
Definition step (st : registry) (o : op) : registry :=
  match o with
  | AddMatrixMember c mx anon => (addMatrixMember st c mx anon).2
  | AddXmppMember c rj anon mx =>
      match addXmppMember st c rj anon mx with
      | Some (_, st') => st'
      | None => st
      end
  | RemoveMatrixMember c mx => (removeMatrixMember st c mx).2
  | RemoveXmppMember c rj =>
      match removeXmppMember st c rj with
      | Some (_, st') => st'
      | None => st
      end
  end.

(** The registry after the calls [ops] on a fresh [GatewayMUCMembership]. *)
Definition run (ops : list op) : registry := foldl step ∅ ops.

(** A full device address as the gateway gets it: the parse of an address
    string that has a local part. *)
Definition user_address (d : JID) : Prop :=
  (∃ s, jid s = Some d) ∧ Js.truthy (local d) = true.

(** The real identity of an address: the address without its resource. *)
Definition bare (d : JID) : JID := mkJID (local d) (domain d) EmptyString.

Definition user_op (o : op) : Prop :=
  match o with
  | AddXmppMember _ rj _ _ => user_address rj
  | _ => True
  end.

(** The keys of the two lookups that guard insertion: the Matrix user id of
    a Matrix member, the printed real address of an XMPP member. *)
Definition matrix_key (u : IGatewayMember) : option string :=
  m_matrixId <$> as_matrix u.

Definition xmpp_key (u : IGatewayMember) : option string :=
  (λ x, toString (realJid x)) <$> as_xmpp u.

(** No key occurs twice in a room. *)
Definition unique_keys (st : registry) : Prop :=
  ∀ c, NoDup (omap matrix_key (room st c)) ∧ NoDup (omap xmpp_key (room st c)).

End Registry.
Export Registry.


(** ** The [he] package: [he.encode]

    [he.encode(text)] with its default options rewrites, in this order, the
    code units matched by [regexEscape] (the five XML specials and the
    backtick) and then those matched by [regexBmpWhitelist] (everything that
    is neither printable ASCII nor a newline) into hexadecimal character
    references [&#xH;]. *)

Module He.

Definition hex_digit (n : N) : ascii :=
  match n with
  | 0 => "0" | 1 => "1" | 2 => "2" | 3 => "3" | 4 => "4" | 5 => "5"
  | 6 => "6" | 7 => "7" | 8 => "8" | 9 => "9" | 10 => "A" | 11 => "B"
  | 12 => "C" | 13 => "D" | 14 => "E" | _ => "F"
  end%N%char.

(** [codePoint.toString(16).toUpperCase()] *)
Definition to_hex (n : N) : string :=
  if (n <? 16)%N then String (hex_digit n) EmptyString
  else String (hex_digit (n / 16)) (String (hex_digit (n mod 16)) EmptyString).

Definition hexEscape (c : ascii) : string :=
  "&#x" +:+ to_hex (N_of_ascii c) +:+ ";".

(** The double quote, code unit 34. *)
Definition dquote : ascii := "034"%char.

(** [regexEscape]: the double quote, the ampersand, the apostrophe, the
    angle brackets and the backtick. *)
Definition regexEscape (c : ascii) : bool :=
  Ascii.eqb c dquote || Ascii.eqb c "&" || Ascii.eqb c "'" ||
  Ascii.eqb c "<" || Ascii.eqb c ">" || Ascii.eqb c "`".

(** [regexBmpWhitelist]: the code units 01-09, 0B, 0C, 0E-1F, 7F, 81, 8D,
    8F, 90, 9D and A0 upwards (hexadecimal). *)
Definition regexBmpWhitelist (c : ascii) : bool :=
  let n := N_of_ascii c in
  ((1 <=? n) && (n <=? 9) || (n =? 11) || (n =? 12) ||
   (14 <=? n) && (n <=? 31) || (n =? 127) || (n =? 129) || (n =? 141) ||
   (n =? 143) || (n =? 144) || (n =? 157) || (160 <=? n))%N.

(** [s.replace(re, f)] for a global regular expression [re] that matches
    single code units. *)
Fixpoint replace (re : ascii → bool) (f : ascii → string) (s : string) : string :=
  match s with
  | EmptyString => EmptyString
  | String c r => (if re c then f c else String c EmptyString) +:+ replace re f r
  end.

Definition encode (s : string) : string :=
  replace regexBmpWhitelist hexEscape (replace regexEscape hexEscape s).

End He.

(** ** Reading rendered markup

    The observations the stanza properties are stated with: how a reader of
    the rendered text sees an attribute, character data, and whether a piece
    of text is free of raw markup characters. *)

Module Xml.

(** [strip_prefix p s]: [s] without its prefix [p], when it starts with it. *)
Fixpoint strip_prefix (p s : string) : option string :=
  match p, s with
  | EmptyString, _ => Some s
  | String a p', String b s' =>
      if Ascii.eqb a b then strip_prefix p' s' else None
  | String _ _, EmptyString => None
  end.

(** [starts_with p s]: [s.startsWith(p)]. *)
Definition starts_with (p s : string) : bool :=
  match strip_prefix p s with
  | Some _ => true
  | None => false
  end.

(** [read_attr name q s] reads [ name=qVALUEq] at the head of [s], for the
    quote character [q]: the value runs up to the next [q].  It answers the
    value and the text after the closing quote. *)
Definition read_attr (name : string) (q : ascii) (s : string)
  : option (string * string) :=
  r ← strip_prefix (" " +:+ name +:+ "=" +:+ String q EmptyString) s;
  Js.break q r.

Fixpoint read_attrs (names : list string) (q : ascii) (s : string)
  : option (list string * string) :=
  match names with
  | [] => Some ([], s)
  | n :: ns =>
      '(v, r) ← read_attr n q s;
      '(vs, r') ← read_attrs ns q r;
      Some (v :: vs, r')
  end.

(** [read_open tag names q s] reads the head of a start tag, [<tag] followed
    by the attributes [names] in this order, and answers their values and
    the text that follows them. *)
Definition read_open (tag : string) (names : list string) (q : ascii)
    (s : string) : option (list string * string) :=
  r ← strip_prefix ("<" +:+ tag) s;
  read_attrs names q r.

(** [read_element name s] reads [<name>TEXT</name>] at the head of [s], where
    [TEXT] is character data (it runs up to the next ['<']).  It answers the
    text and what follows the end tag. *)
Definition read_element (name : string) (s : string) : option (string * string) :=
  r ← strip_prefix ("<" +:+ name +:+ ">") s;
  '(text, r1) ← Js.break "<" r;
  r2 ← strip_prefix ("/" +:+ name +:+ ">") r1;
  Some (text, r2).

(** [read_item s] reads a MUC [<item .../>] element at the head of [s]: its
    [affiliation], its [jid] when the element has one, and its [role]. *)
Definition read_item (s : string) : option (string * option string * string) :=
  r ← strip_prefix "<item" s;
  '(aff, r1) ← read_attr "affiliation" "'" r;
  let '(jid, r2) :=
    match read_attr "jid" "'" r1 with
    | Some (j, r2) => (Some j, r2)
    | None => (None, r1)
    end in
  '(role, r3) ← read_attr "role" "'" r2;
  _ ← strip_prefix "/>" r3;
  Some (aff, jid, role).

(** [read_message skip s] reads a rendered message: the attributes [from],
    [to] and [id] of its start tag, then the text [skip] (the rest of the
    start tag and the caller's [html] block, which the builder copies as
    they are), then the [<body>] element.  It answers the three attribute
    values and the character data of the body. *)
Definition read_message (skip : string) (s : string)
  : option (list string * string) :=
  '(attrs, r) ← read_open "message" ["from"; "to"; "id"] He.dquote s;
  r1 ← strip_prefix skip r;
  '(text, _) ← read_element "body" r1;
  Some (attrs, text).

(** [entity_safe s]: no raw ['<'], ['>'], double quote or apostrophe occurs
    in [s], and every ['&'] opens a hexadecimal character reference. *)
Fixpoint entity_safe (s : string) : bool :=
  match s with
  | EmptyString => true
  | String c r =>
      (if Ascii.eqb c "&" then starts_with "#x" r
       else negb (Ascii.eqb c "<" || Ascii.eqb c ">" || Ascii.eqb c He.dquote
                  || Ascii.eqb c "'"))
      && entity_safe r
  end.

(** Number of occurrences of [pat] in [s]. *)
Fixpoint count (pat s : string) : nat :=
  (if starts_with pat s then 1 else 0) +
  match s with
  | EmptyString => 0
  | String _ r => count pat r
  end.

End Xml.

(** ** Stanza builders *)

Module Stza.

(** A template substitution [${e}] for [e : string | undefined]. *)
Definition tpl (o : option string) : string := default "undefined" o.

Definition dq : string := String He.dquote EmptyString.
Definition nl : string := String "010"%char EmptyString.

(** *** [StzaBase] *)

Record StzaBase := mkBase { _from : string; _to : string; _id : string }.

Definition get_from (b : StzaBase) : string := _from b.
Definition set_from (val : string) (b : StzaBase) : StzaBase :=
  mkBase (He.encode val) (_to b) (_id b).

Definition get_to (b : StzaBase) : string := _to b.
Definition set_to (val : string) (b : StzaBase) : StzaBase :=
  mkBase (_from b) (He.encode val) (_id b).

(** [return this._id || undefined] *)
Definition get_id (b : StzaBase) : option string :=
  if Js.truthy (_id b) then Some (_id b) else None.

(** [if (!val) { return; } this._id = he.encode(val)] *)
Definition set_id (val : option string) (b : StzaBase) : StzaBase :=
  match val with
  | Some v => if Js.truthy v then mkBase (_from b) (_to b) (He.encode v) else b
  | None => b
  end.

Definition StzaBase_new (from to : string) (id : option string) : StzaBase :=
  set_id id (set_to to (set_from from (mkBase EmptyString EmptyString EmptyString))).

(** *** [StzaPresence] and its subclasses

    The getters [xContent], [xProtocol] and [presenceContent] are overridden
    in the subclasses; the class of the object selects them. *)

Inductive PresenceClass :=
  | Presence
  | PresenceItem (affiliation role : string) (self : bool) (jid itemType : string)
  | PresenceError (by_ errType innerError : string)
  | PresenceJoin
  | PresencePart.

Record StzaPresence := mkPresence {
  p_base : StzaBase;
  includeXContent : bool;
  presenceType : option string;
  p_class : PresenceClass;
}.

Definition StzaPresence_new (from to : string) (id presenceType : option string)
  : StzaPresence :=
  mkPresence (StzaBase_new from to id) true presenceType Presence.

Definition StzaPresenceItem_new (from to : string) (id : option string)
    (affiliation role : option string) (self : option bool)
    (jid itemType : option string) : StzaPresence :=
  let affiliation := default "member" affiliation in
  let role := default "participant" role in
  let self := default false self in
  let jid := default EmptyString jid in
  let itemType := default EmptyString itemType in
  mkPresence (StzaBase_new from to id) true (Some itemType)
             (PresenceItem affiliation role self jid itemType).

Definition StzaPresenceError_new (from to id by_ errType innerError : string)
  : StzaPresence :=
  mkPresence (StzaBase_new from to (Some id)) true (Some "error")
             (PresenceError by_ errType innerError).

Definition StzaPresenceJoin_new (from to : string) (id presenceType : option string)
  : StzaPresence :=
  mkPresence (StzaBase_new from to id) true presenceType PresenceJoin.

Definition StzaPresencePart_new (from to : string) : StzaPresence :=
  let b := StzaBase_new from to None in
  mkPresence (set_id None b) false (Some "unavailable") PresencePart.

Definition xContent (p : StzaPresence) : string :=
  match p_class p with
  | PresenceItem affiliation role self jid _ =>
      let statusCode := if self then "<status code='110'/>" else EmptyString in
      let jid := if Js.truthy jid then " jid='" +:+ jid +:+ "'" else EmptyString in
      "<item affiliation='" +:+ affiliation +:+ "'" +:+ jid +:+
      " role='" +:+ role +:+ "'/>" +:+ statusCode
  | PresenceJoin => "<history maxchars='0'/>"
  | _ => EmptyString
  end.

Definition xProtocol (p : StzaPresence) : string :=
  match p_class p with
  | PresenceItem _ _ _ _ _ => "muc#user"
  | _ => "muc"
  end.

Definition presenceContent (p : StzaPresence) : string :=
  match p_class p with
  | PresenceError by_ errType innerError =>
      "<error type='" +:+ errType +:+ "' by='" +:+ by_ +:+ "'><" +:+ innerError
      +:+ " xmlns='urn:ietf:params:xml:ns:xmpp-stanzas'/></error>"
  | _ => EmptyString
  end.

Definition StzaPresence_type (p : StzaPresence) : string := "presence".

Definition StzaPresence_xml (p : StzaPresence) : string :=
  let type :=
    if Js.truthy_opt (presenceType p)
    then " type='" +:+ tpl (presenceType p) +:+ "'" else EmptyString in
  let id :=
    if Js.truthy_opt (get_id (p_base p))
    then " id=" +:+ dq +:+ tpl (get_id (p_base p)) +:+ dq else EmptyString in
  let content :=
    if includeXContent p then
      if Js.truthy (xContent p)
      then "<x xmlns='http://jabber.org/protocol/" +:+ xProtocol p +:+ "'>"
           +:+ xContent p +:+ "</x>"
      else "<x xmlns='http://jabber.org/protocol/muc'/>"
    else EmptyString in
  "<presence from=" +:+ dq +:+ get_from (p_base p) +:+ dq +:+ " to=" +:+ dq
  +:+ get_to (p_base p) +:+ dq +:+ id +:+ type +:+ ">" +:+ content
  +:+ presenceContent p +:+ "</presence>".

(** *** [StzaMessage] *)

(** The message record [IBasicProtocolMessage] of the formatter, as far as
    the builder reads it. *)
Record IFormatted := mkFormatted { f_type : string; f_body : string }.
Record IAttachment := mkAttachment { uri : string }.
Record IOpts := mkOpts { o_attachments : option (list IAttachment) }.
Record IBasicProtocolMessage := mkMsg {
  msg_body : string;
  msg_formatted : option (list IFormatted);
  msg_opts : option IOpts;
  msg_id : option string;
}.

Record StzaMessage := mkMessage {
  m_base : StzaBase;
  html : string;
  body : string;
  attachments : list string;
  messageType : option string;
}.

Definition m_set_id (val : option string) (m : StzaMessage) : StzaMessage :=
  mkMessage (set_id val (m_base m)) (html m) (body m) (attachments m)
            (messageType m).

(** The constructor; [uuid] is the token a call of [uuid()] answers. *)
Definition StzaMessage_new (uuid : string) (from to : string)
    (idOrMsg : option (string + IBasicProtocolMessage))
    (messageType : option string) : StzaMessage :=
  let this :=
    mkMessage (StzaBase_new from to None) EmptyString EmptyString [] messageType in
  let this :=
    match idOrMsg with
    | Some (inr msg) =>
        let this_html :=
          match msg_formatted msg with
          | Some formatted =>
              match array_find (λ f, f_type f = "html") formatted with
              | Some h => f_body h
              | None => EmptyString
              end
          | None => html this
          end in
        let this_attachments :=
          match msg_opts msg with
          | Some opts => map uri (default [] (o_attachments opts))
          | None => attachments this
          end in
        m_set_id (msg_id msg)
          (mkMessage (m_base this) this_html (msg_body msg) this_attachments
                     messageType)
    | Some (inl id) =>
        if Js.truthy id then m_set_id (Some id) this else this
    | None => this
    end in
  m_set_id (if Js.truthy_opt (get_id (m_base this))
            then get_id (m_base this) else Some uuid) this.

Definition StzaMessage_type (m : StzaMessage) : string := "message".

(** [const type]: [`type='${this.messageType}'`] when [this.messageType] is
    truthy, the empty string otherwise. *)
Definition message_type_attr (m : StzaMessage) : string :=
  if Js.truthy_opt (messageType m)
  then "type='" +:+ tpl (messageType m) +:+ "'" else EmptyString.

(** The getter [xml] assigns [this.body]; it answers the text and the object
    after the call. *)
Definition StzaMessage_xml (m : StzaMessage) : string * StzaMessage :=
  let type := message_type_attr m in
  let atts :=
    map (λ a, "<x xmlns='jabber:x:oob'><url>" +:+ He.encode a +:+ "</url></x>")
        (attachments m) in
  let this :=
    match attachments m with
    | [a] => mkMessage (m_base m) (html m) a (attachments m) (messageType m)
    | _ => m
    end in
  ("<message from=" +:+ dq +:+ get_from (m_base this) +:+ dq +:+ " to=" +:+ dq
   +:+ get_to (m_base this) +:+ dq +:+ " id=" +:+ dq +:+ tpl (get_id (m_base this))
   +:+ dq +:+ " " +:+ type +:+ ">" +:+ html this +:+ "<body>"
   +:+ He.encode (body this) +:+ "</body>" +:+ Js.join "," atts +:+ "</message>",
   this).

(** *** [StzaMessageSubject] *)

Record StzaMessageSubject := mkSubject { s_base : StzaBase; subject : string }.

Definition StzaMessageSubject_new (from to : string) (id subject : option string)
  : StzaMessageSubject :=
  mkSubject (StzaBase_new from to id) (default EmptyString subject).

Definition StzaMessageSubject_type (s : StzaMessageSubject) : string := "message".

Definition StzaMessageSubject_xml (s : StzaMessageSubject) : string :=
  "<message from=" +:+ dq +:+ get_from (s_base s) +:+ dq +:+ " to=" +:+ dq
  +:+ get_to (s_base s) +:+ dq +:+ " id=" +:+ dq +:+ tpl (get_id (s_base s))
  +:+ dq +:+ " type='groupchat'>" +:+ "<subject>" +:+ subject s
  +:+ "</subject></message>".

(** *** [StzaIqPing] *)

Record StzaIqPing := mkPing { i_base : StzaBase }.


Definition StzaIqPing_type (s : StzaIqPing) : string := "iq".


(** *** [StzaIqDisco] and [StzaIqDiscoInfo] *)

(** An identity object [{category, type, name}].  The sets of a
    [StzaIqDiscoInfo] are public and filled by the callers; a [Set] of
    objects holds references and keeps apart two objects that are not the
    same reference, whatever their fields.  The objects live in a heap, the
    list of the objects allocated so far; a reference is a position in
    it. *)
Record Identity := mkIdentity {
  category : string;
  type : string;
  name : string;
}.

Abbreviation obj_ref := nat.
Abbreviation heap := (list Identity).

(** An object literal [{category, type, name}]: a new object. *)
Definition alloc (h : heap) (o : Identity) : obj_ref * heap :=
  (length h, h ++ [o]).

Record StzaIqDiscoInfo := mkDiscoInfo {
  d_base : StzaBase;
  iqType : string;
  queryType : string;
  identity : list obj_ref;
  feature : list string;
}.

(** [StzaIqDisco]'s constructor followed by the parameter properties
    [public from], [public to], [public id] of [StzaIqDiscoInfo], which
    assign [this.from], [this.to] and [this.id] once more through the
    inherited setters. *)
Definition StzaIqDiscoInfo_new (from to id : string) : StzaIqDiscoInfo :=
  let b := StzaBase_new from to (Some id) in
  let b := set_id (Some id) (set_to to (set_from from b)) in
  mkDiscoInfo b "result" "info" [] [].

(** [stanza.identity.add(o)] for the object [o] behind reference [r]. *)
Definition identity_add (r : obj_ref) (s : StzaIqDiscoInfo) : StzaIqDiscoInfo :=
  mkDiscoInfo (d_base s) (iqType s) (queryType s)
    (if decide (r ∈ identity s) then identity s else identity s ++ [r])
    (feature s).

(** [stanza.identity.add({category, type, name})] with an object literal. *)
Definition identity_add_literal (o : Identity) (hs : heap * StzaIqDiscoInfo)
  : heap * StzaIqDiscoInfo :=
  let '(r, h) := alloc hs.1 o in (h, identity_add r hs.2).

(** [stanza.feature.add(f)] *)
Definition feature_add (f : string) (s : StzaIqDiscoInfo) : StzaIqDiscoInfo :=
  mkDiscoInfo (d_base s) (iqType s) (queryType s) (identity s)
              (JSSet.add f (feature s)).

(** One [<identity/>] element. *)
Definition identity_element (ident : Identity) : string :=
  "<identity category='" +:+ category ident +:+ "' type='" +:+ type ident
  +:+ "' name='" +:+ name ident +:+ "'/>".

(** The loop [this.identity.forEach(...)].  The references of the set are
    allocated; the lookup of a reference outside the heap, which cannot
    occur, renders nothing. *)
Definition identityContent (h : heap) (s : StzaIqDiscoInfo) : string :=
  foldl (λ acc r,
           match h !! r with
           | Some ident => acc +:+ identity_element ident
           | None => acc
           end)
        EmptyString (identity s).

(** The loop [this.feature.forEach(...)]. *)
Definition featureContent (s : StzaIqDiscoInfo) : string :=
  foldl (λ acc feat, acc +:+ "<feature var='" +:+ feat +:+ "'/>")
        EmptyString (feature s).

Definition queryContent (h : heap) (s : StzaIqDiscoInfo) : string :=
  let identity := identityContent h s in
  let feature := featureContent s in
  identity +:+ feature.

Definition StzaIqDiscoInfo_type (s : StzaIqDiscoInfo) : string := "iq".

Definition StzaIqDiscoInfo_xml (h : heap) (s : StzaIqDiscoInfo) : string :=
  "<iq from='" +:+ get_from (d_base s) +:+ "' to='" +:+ get_to (d_base s)
  +:+ "' id='" +:+ tpl (get_id (d_base s)) +:+ "' type='" +:+ iqType s +:+ "'>"
  +:+ nl +:+ "        <query xmlns='http://jabber.org/protocol/disco#"
  +:+ queryType s +:+ "'>" +:+ nl +:+ "        " +:+ queryContent h s
  +:+ "</query></iq>".

End Stza.
Export Stza.

(** ** Sample data

    The room and the users of the scenario of the specification, and a few
    stanzas. *)

Module Sample.

Definition chat : string := "chat@conf.example".
Definition alice : string := "@alice:hs".
Definition alice_anon : JID := mkJID "chat" "conf.example" "alice".
Definition bob_anon : JID := mkJID "chat" "conf.example" "bob".
Definition bob_phone : JID := mkJID "bob" "xmpp.example" "phone".
Definition bob_laptop : JID := mkJID "bob" "xmpp.example" "laptop".

(** Alice, a Matrix user, has joined. *)
Definition alice_joined : registry :=
  run [AddMatrixMember chat alice alice_anon].

(** Bob has joined from his phone. *)
Definition bob_joined : registry :=
  run [AddXmppMember chat bob_phone bob_anon "@_xmpp_bob:hs"].

(** A session of the room. *)
Definition session : list op :=
  [AddMatrixMember chat alice alice_anon;
   AddXmppMember chat bob_phone bob_anon "@_xmpp_bob:hs";
   AddXmppMember chat bob_laptop bob_anon "@_xmpp_bob:hs";
   AddMatrixMember chat alice alice_anon;
   RemoveXmppMember chat (inl "bob@xmpp.example/phone")].

(** Bob has joined from his phone and from his laptop. *)
Definition two_devices : registry :=
  run [AddXmppMember chat bob_phone bob_anon "@_xmpp_bob:hs";
       AddXmppMember chat bob_laptop bob_anon "@_xmpp_bob:hs"].

Definition bob_member (devs : list string) : IGatewayMemberXmpp :=
  mkXmpp bob_anon "@_xmpp_bob:hs" (mkJID "bob" "xmpp.example" EmptyString) devs.

(** A presence item that reveals a real address whose resource holds an
    ampersand. *)
Definition item_with_jid : StzaPresence :=
  StzaPresenceItem_new "chat@conf.example/alice" "bob@xmpp.example/phone"
                       None None None None (Some "bob@xmpp.example/R&D") None.

Definition conference : Identity := mkIdentity "conference" "text" "Chat".

(** A disco-info answer to which the caller adds the same triple twice, each
    time as an object literal. *)
Definition disco0 : heap * StzaIqDiscoInfo :=
  ([], StzaIqDiscoInfo_new "chat@conf.example" "bob@xmpp.example/phone" "q1").
Definition disco1 : heap * StzaIqDiscoInfo := identity_add_literal conference disco0.
Definition disco2 : heap * StzaIqDiscoInfo := identity_add_literal conference disco1.

End Sample.

(** ** Invariants of the registry *)

(** The device set of an XMPP member is not empty (and as a set holds no
    address twice). *)
Definition devices_ok (u : IGatewayMember) : Prop :=
  match u with
  | Xmpp x => devices x ≠ [] ∧ NoDup (devices x)
  | Matrix _ => True
  end.

(** The devices of an XMPP member are addresses of the member's real
    identity: each is the printed form of a user address whose real identity
    is the member's [realJid]. *)
Definition devices_owned (u : IGatewayMember) : Prop :=
  match u with
  | Xmpp x =>
      (∃ d, user_address d ∧ realJid x = bare d) ∧
      ∀ s, s ∈ devices x → ∃ d, user_address d ∧ bare d = realJid x ∧ toString d = s
  | Matrix _ => True
  end.

(** The room a call names, and the kind of member it is about. *)
Definition op_room (o : op) : string :=
  match o with
  | AddMatrixMember c _ _ | AddXmppMember c _ _ _
  | RemoveMatrixMember c _ | RemoveXmppMember c _ => c
  end.

Definition xmpp_op (o : op) : bool :=
  match o with
  | AddXmppMember _ _ _ _ | RemoveXmppMember _ _ => true
  | AddMatrixMember _ _ _ | RemoveMatrixMember _ _ => false
  end.

(** ** Reading character references

    What a reader of the rendered text makes of the references the encoder
    writes: [&#xH;] and [&#xHH;] stand for the code unit with that
    hexadecimal number; everything else is text. *)

Module Entity.

Definition hex_value (c : ascii) : option N :=
  let n := N_of_ascii c in
  if ((48 <=? n) && (n <=? 57))%N then Some (n - 48)%N
  else if ((65 <=? n) && (n <=? 70))%N then Some (n - 55)%N
  else if ((97 <=? n) && (n <=? 102))%N then Some (n - 87)%N
  else None.

Fixpoint decode (s : string) : string :=
  match s with
  | EmptyString => EmptyString
  | String c r =>
      let raw := String c (decode r) in
      if negb (Ascii.eqb c "&") then raw else
      match r with
      | String h (String x (String d1 (String e1 r1))) =>
          if Ascii.eqb h "#" && Ascii.eqb x "x" then
            match hex_value d1 with
            | Some n1 =>
                if Ascii.eqb e1 ";" then String (ascii_of_N n1) (decode r1)
                else
                  match hex_value e1, r1 with
                  | Some n2, String e2 r2 =>
                      if Ascii.eqb e2 ";"
                      then String (ascii_of_N (16 * n1 + n2)) (decode r2)
                      else raw
                  | _, _ => raw
                  end
            | None => raw
            end
          else raw
      | _ => raw
      end
  end.

End Entity.

(** * Proofs *)

#[local] Arguments String.append !_ _ /.

(** ** Properties of the string operations *)

Section strings.
Implicit Types (c : ascii) (s x y : string).

Lemma append_nil_r s : s +:+ EmptyString = s.
Proof. induction s as [|a s IH]; simpl; [done | by f_equal]. Qed.

Lemma append_assoc x y s : (x +:+ y) +:+ s = x +:+ y +:+ s.
Proof. induction x as [|a x IH]; simpl; [done | by f_equal]. Qed.

Lemma append_inj_l x s y : x +:+ s = x +:+ y → s = y.
Proof. induction x as [|a x IH]; simpl; [done | intros [=]; auto]. Qed.

Lemma append_self_inv x y : x +:+ y = x → y = EmptyString.
Proof. induction x as [|a x IH]; simpl; [done | intros [=]; auto]. Qed.

Lemma occurs_app c x y :
  Js.occurs c (x +:+ y) = Js.occurs c x || Js.occurs c y.
Proof.
  induction x as [|a x IH]; simpl; [done |].
  by destruct (Ascii.eqb a c).
Qed.

Lemma break_app c x y :
  Js.occurs c x = false → Js.break c (x +:+ String c y) = Some (x, y).
Proof.
  induction x as [|a x IH]; simpl.
  - by rewrite Ascii.eqb_refl.
  - destruct (Ascii.eqb a c); [done |]. intros H. by rewrite IH.
Qed.

Lemma break_None c s : Js.occurs c s = false → Js.break c s = None.
Proof.
  induction s as [|a s IH]; simpl; [done |].
  destruct (Ascii.eqb a c); [done |]. intros H. by rewrite IH.
Qed.

Lemma break_Some c s x y :
  Js.break c s = Some (x, y) → s = x +:+ String c y ∧ Js.occurs c x = false.
Proof.
  revert x. induction s as [|a s IH]; simpl; intros x; [done |].
  destruct (Ascii.eqb_spec a c) as [->|Hne].
  - by intros [= <- <-].
  - destruct (Js.break c s) as [[x' y']|] eqn:E; [|done].
    intros [= <- <-]. destruct (IH x' eq_refl) as [-> Hx]. simpl.
    split; [done |]. by destruct (Ascii.eqb_spec a c).
Qed.

Lemma break_occurs_None c s : Js.break c s = None → Js.occurs c s = false.
Proof.
  induction s as [|a s IH]; simpl; [done |].
  destruct (Ascii.eqb a c); [done |].
  destruct (Js.break c s) as [[??]|]; [done | auto].
Qed.

Lemma truthy_ne s : Js.truthy s = true ↔ s ≠ EmptyString.
Proof. destruct s; simpl; split; done. Qed.

End strings.

(** ** Properties of addresses *)

Lemma new_JID_Some l d r j :
  new_JID l d r = Some j →
  j = mkJID (default EmptyString l) d (default EmptyString r) ∧ Js.truthy d = true.
Proof. unfold new_JID. destruct (Js.truthy d); [by intros [= <-] | done]. Qed.

(** The fields of a parsed address are well formed. *)
Lemma jid_wf s j : jid s = Some j → Jid.wf j.
Proof.
  unfold jid, Jid.wf.
  destruct (Js.break "/" s) as [[s1 res]|] eqn:E1.
  - apply break_Some in E1 as [-> H1].
    destruct (Js.break "@" s1) as [[loc s2]|] eqn:E2.
    + apply break_Some in E2 as [-> H2].
      intros [-> Hd]%new_JID_Some. simpl.
      rewrite occurs_app in H1. simpl in H1.
      apply orb_false_iff in H1 as [H1 H1'].
      split_and!; [done | done | done | by apply truthy_ne].
    + intros [-> Hd]%new_JID_Some. simpl.
      split_and!; [done | done | done | by apply truthy_ne].
  - apply break_occurs_None in E1.
    destruct (Js.break "@" s) as [[loc s2]|] eqn:E2.
    + apply break_Some in E2 as [-> H2].
      intros [-> Hd]%new_JID_Some. simpl.
      rewrite occurs_app in E1. simpl in E1.
      apply orb_false_iff in E1 as [H1 H1'].
      split_and!; [done | done | done | by apply truthy_ne].
    + intros [-> Hd]%new_JID_Some. simpl.
      split_and!; [done | done | done | by apply truthy_ne].
Qed.

(** Parsing [`${j.local}@${j.domain}`] gives the address without resource. *)
Lemma jid_stripped j : Jid.wf j → jid (Jid.stripped j) = Some (bare j).
Proof.
  intros (Hl1 & Hl2 & Hd & Hne). unfold jid, Jid.stripped. simpl.
  rewrite break_None; last first.
  { rewrite occurs_app. simpl. by rewrite Hl2, Hd. }
  rewrite break_app by done.
  unfold new_JID. apply truthy_ne in Hne. by rewrite Hne.
Qed.

Lemma toString_bare j :
  Js.truthy (local j) = true → toString (bare j) = Jid.stripped j.
Proof. unfold toString, bare, Jid.stripped. simpl. by intros ->. Qed.

(** Two addresses of one real identity print differently unless they are
    the same address. *)
Lemma toString_inj_same_bare d1 d2 :
  bare d2 = bare d1 → toString d1 = toString d2 → d1 = d2.
Proof.
  destruct d1 as [l1 dm1 r1], d2 as [l2 dm2 r2].
  intros [= -> ->]. unfold toString. simpl.
  generalize (if Js.truthy l1 then l1 +:+ String "@" dm1 else dm1). intros b.
  destruct r1 as [|a1 r1], r2 as [|a2 r2]; simpl; intros H.
  - done.
  - symmetry in H. by apply append_self_inv in H.
  - by apply append_self_inv in H.
  - apply append_inj_l in H. by injection H as -> ->.
Qed.

(** ** Properties of the registry *)

Section arrays.
Context {A : Type} (P : A → Prop) `{∀ x, Decision (P x)}.

Lemma array_find_Some (l : list A) x : array_find P l = Some x → x ∈ l ∧ P x.
Proof.
  unfold array_find. intros [[i y] [Hf ->]]%fmap_Some.
  apply list_find_Some in Hf as (Hl & HP & _).
  split; [by eapply list_elem_of_lookup_2 | done].
Qed.

Lemma array_find_None (l : list A) : array_find P l = None → Forall (λ x, ¬ P x) l.
Proof. unfold array_find. intros Hf%fmap_None. by apply list_find_None in Hf. Qed.

Lemma array_find_snoc (l : list A) x :
  array_find P l = None → P x → array_find P (l ++ [x]) = Some x.
Proof.
  unfold array_find. intros Hf%fmap_None HP.
  rewrite list_find_app_r by done. simpl.
  by rewrite decide_True.
Qed.

Lemma filter_none (l : list A) : Forall (λ x, ¬ P x) l → filter P l = [].
Proof.
  induction 1 as [|x l Hx _ IH]; [done |].
  by rewrite filter_cons_False.
Qed.

End arrays.

Section members.
Context {B : Type} (g : IGatewayMember → option B).
Implicit Types (l : list IGatewayMember) (r : ref).

Lemma members_snd (f : nat → nat) l :
  (omap (λ s, pair s.1 <$> g s.2) (imap (λ i, pair (f i)) l)).*2 = omap g l.
Proof.
  revert f. induction l as [|u l IH]; intros f; [done |].
  rewrite imap_cons. csimpl. specialize (IH (f ∘ S)).
  destruct (g u); csimpl; by rewrite <- IH.
Qed.

Lemma members_elem l r b :
  (r, b) ∈ omap (λ s, pair s.1 <$> g s.2) (imap pair l) ↔
  ∃ u, l !! r = Some u ∧ g u = Some b.
Proof.
  rewrite list_elem_of_omap. split.
  - intros ([i u] & (j & v & [= -> ->] & Hl)%elem_of_lookup_imap & Hg).
    simpl in Hg. apply fmap_Some in Hg as (b' & Hg & [= -> ->]). eauto.
  - intros (u & Hl & Hg). exists (r, u). split.
    + apply elem_of_lookup_imap. eauto.
    + simpl. by rewrite Hg.
Qed.

Lemma members_snoc l u :
  omap (λ s, pair s.1 <$> g s.2) (imap pair (l ++ [u])) =
  omap (λ s, pair s.1 <$> g s.2) (imap pair l) ++
  match g u with Some b => [(length l, b)] | None => [] end.
Proof.
  rewrite imap_app, omap_app. f_equal. csimpl.
  rewrite Nat.add_0_r. by destruct (g u).
Qed.

Lemma omap_alter_key (k : IGatewayMember → option string) f r l :
  (∀ u, k (f u) = k u) → omap k (alter f r l) = omap k l.
Proof.
  intros Hk. revert r. induction l as [|u l IH]; intros [|r]; csimpl; [done.. | |].
  - by rewrite Hk.
  - by rewrite IH.
Qed.

Lemma omap_delete_NoDup (k : IGatewayMember → option string) r l :
  NoDup (omap k l) → NoDup (omap k (delete r l)).
Proof.
  intros Hnd. eapply sublist_NoDup; [exact Hnd |]. clear Hnd. revert r.
  induction l as [|u l IH]; intros [|r]; csimpl; [done.. | |].
  - destruct (k u); [by apply sublist_cons | done].
  - destruct (k u); [by apply sublist_skip | done].
Qed.

End members.

Section registry.
Implicit Types (st : registry) (c : string) (l : list IGatewayMember) (r : ref).

Lemma room_empty c : room ∅ c = [].
Proof. unfold room. by rewrite lookup_empty. Qed.

Lemma room_insert st c c' l :
  room (<[c := l]> st) c' = if decide (c = c') then l else room st c'.
Proof.
  unfold room. case_decide as Hc.
  - subst. by rewrite lookup_insert_eq.
  - by rewrite lookup_insert_ne.
Qed.

Lemma room_mutate f c r st c' :
  room (mutate f c r st) c' =
  if decide (c = c') then alter f r (room st c) else room st c'.
Proof.
  unfold room, mutate. case_decide as Hc.
  - subst. rewrite lookup_alter_eq. by destruct (st !! c').
  - by rewrite lookup_alter_ne.
Qed.

Lemma room_set_delete c r st c' :
  room (set_delete c r st).2 c' =
  if decide (c = c') then delete r (room st c) else room st c'.
Proof.
  unfold room, set_delete. simpl. case_decide as Hc.
  - subst. rewrite lookup_alter_eq. by destruct (st !! c').
  - by rewrite lookup_alter_ne.
Qed.

Lemma getMembers_snd st c : (getMembers st c).*2 = room st c.
Proof.
  unfold getMembers. rewrite fmap_imap.
  rewrite (imap_ext _ (const id)) by done. rewrite imap_const. apply list_fmap_id.
Qed.

Lemma getXmppMembers_elem st c r x :
  (r, x) ∈ getXmppMembers st c ↔ room st c !! r = Some (Xmpp x).
Proof.
  unfold getXmppMembers, getMembers. rewrite members_elem. split.
  - intros ([m|x'] & Hl & [=]). by subst.
  - intros Hl. by exists (Xmpp x).
Qed.

Lemma getXmppMembers_keys st c :
  (λ u, toString (realJid u.2)) <$> getXmppMembers st c = omap xmpp_key (room st c).
Proof.
  unfold getXmppMembers, getMembers, xmpp_key.
  rewrite <- (list_fmap_omap as_xmpp), <- (members_snd as_xmpp id).
  by rewrite <- list_fmap_compose.
Qed.

Lemma getMatrixMembers_keys st c :
  (λ u, m_matrixId u.2) <$> getMatrixMembers st c = omap matrix_key (room st c).
Proof.
  unfold getMatrixMembers, getMembers, matrix_key.
  rewrite <- (list_fmap_omap as_matrix), <- (members_snd as_matrix id).
  by rewrite <- list_fmap_compose.
Qed.

Lemma getXmppMembers_snoc st st' c u :
  room st' c = room st c ++ [u] →
  getXmppMembers st' c =
  getXmppMembers st c ++
  match as_xmpp u with Some x => [(length (room st c), x)] | None => [] end.
Proof. unfold getXmppMembers, getMembers. intros ->. apply members_snoc. Qed.

Lemma getMatrixMembers_snoc st st' c u :
  room st' c = room st c ++ [u] →
  getMatrixMembers st' c =
  getMatrixMembers st c ++
  match as_matrix u with Some m => [(length (room st c), m)] | None => [] end.
Proof. unfold getMatrixMembers, getMembers. intros ->. apply members_snoc. Qed.

(** The lookup of [addXmppMember], through the printed stripped address, is
    the lookup by the address itself. *)
Lemma getXmppMemberByRealJid_stripped st c d :
  Jid.wf d → Js.truthy (local d) = true →
  getXmppMemberByRealJid st c (inl (toString (bare d))) =
  getXmppMemberByRealJid st c (inr d).
Proof.
  intros Hwf Hl. unfold getXmppMemberByRealJid, to_jid.
  rewrite toString_bare, jid_stripped by done. done.
Qed.

Lemma getXmppMemberByRealJid_jid st c d :
  getXmppMemberByRealJid st c (inr d) =
  Some (array_find (λ user, toString (realJid user.2) = Jid.stripped d)
                   (getXmppMembers st c)).
Proof. done. Qed.

(** [addXmppMember] on a parsed address with a local part never throws. *)
Lemma addXmppMember_unfold st c d anon mx :
  Jid.wf d → Js.truthy (local d) = true →
  addXmppMember st c d anon mx =
  match array_find (λ user, toString (realJid user.2) = Jid.stripped d)
                   (getXmppMembers st c) with
  | Some (r, _) => Some (false, mutate (devices_add (toString d)) c r st)
  | None =>
      Some (true, <[c := room st c ++ [Xmpp (mkXmpp anon mx (bare d) [toString d])]]> st)
  end.
Proof.
  intros Hwf Hl. unfold addXmppMember.
  rewrite jid_stripped by done. simpl.
  rewrite getXmppMemberByRealJid_stripped, getXmppMemberByRealJid_jid by done.
  simpl. by destruct (array_find _ _) as [[r x]|].
Qed.

End registry.

Section registry_ops.
Implicit Types (st : registry) (c R : string) (l : list IGatewayMember) (r : ref).

Lemma user_address_wf d : user_address d → Jid.wf d ∧ Js.truthy (local d) = true.
Proof. intros [[s Hs] Hl]. split; [by eapply jid_wf | done]. Qed.

Lemma list_alter_Some {A} (f : A → A) (l : list A) i x :
  l !! i = Some x → alter f i l = <[i := f x]> l.
Proof.
  revert i. induction l as [|y l IH]; intros [|i]; simpl; [done.. | |].
  - by intros [= ->].
  - intros Hl. f_equal. by apply IH.
Qed.

Lemma list_delete_alter {A} (f : A → A) (l : list A) i :
  delete i (alter f i l) = delete i l.
Proof.
  revert i. induction l as [|y l IH]; intros [|i]; simpl; [done.. |].
  f_equal. apply IH.
Qed.

Lemma room_lookup_is_Some st c r u : room st c !! r = Some u → is_Some (st !! c).
Proof. unfold room. destruct (st !! c); [eauto | done]. Qed.

(** What [set.delete(member)] does for a member that is in the set. *)
Lemma set_delete_present st c r u :
  room st c !! r = Some u →
  ∃ st', set_delete c r st = (true, st') ∧
    room st' c = delete r (room st c) ∧ ∀ c', c' ≠ c → room st' c' = room st c'.
Proof.
  intros Hl. exists (set_delete c r st).2. split_and!.
  - unfold set_delete. simpl. f_equal. apply bool_decide_eq_true.
    by eapply lookup_lt_Some.
  - rewrite room_set_delete. by rewrite decide_True.
  - intros c' Hc. rewrite room_set_delete. by rewrite decide_False.
Qed.

End registry_ops.

(** C4: after a successful [addMatrixMember(R, U, anon)], the same call
    again answers [false] (the function is total: nothing is thrown), leaves
    the registry as it is, and the room holds exactly one Matrix
    participant for [U]. *)
Theorem addMatrixMember_twice (st st1 : registry) (R U : string) (anon : JID) :
  addMatrixMember st R U anon = (true, st1) →
  addMatrixMember st1 R U anon = (false, st1) ∧
  filter (λ u, m_matrixId u.2 = U) (getMatrixMembers st1 R) =
    [(length (room st R), mkMatrix anon U)].
Proof.
  unfold addMatrixMember at 1. unfold getMatrixMemberByMatrixId.
  destruct (array_find _ (getMatrixMembers st R)) as [?|] eqn:Hfind; [done |].
  intros [= <-].
  assert (getMatrixMembers (<[R := room st R ++ [Matrix (mkMatrix anon U)]]> st) R
          = getMatrixMembers st R ++ [(length (room st R), mkMatrix anon U)]) as Hm.
  { apply (getMatrixMembers_snoc st _ R (Matrix (mkMatrix anon U))).
    rewrite room_insert. by rewrite decide_True. }
  split.
  - unfold addMatrixMember, getMatrixMemberByMatrixId. rewrite Hm.
    by rewrite (array_find_snoc _ _ _ Hfind).
  - rewrite Hm, filter_app, (filter_none _ _ (array_find_None _ _ Hfind)).
    simpl. by rewrite filter_cons_True.
Qed.

(** C1: two distinct device addresses [d1], [d2] of one real identity, added
    to a room that does not hold the identity: the first call answers
    [true], the second [false], and the room then lists exactly one XMPP
    participant for the identity, with devices [{d1, d2}]. *)
Theorem addXmppMember_two_devices (st : registry) (R : string)
    (d1 d2 anon : JID) (mx : string) :
  user_address d1 → user_address d2 → bare d2 = bare d1 → d1 ≠ d2 →
  getXmppMemberByRealJid st R (inr (bare d1)) = Some None →
  ∃ st1 st2,
    addXmppMember st R d1 anon mx = Some (true, st1) ∧
    addXmppMember st1 R d2 anon mx = Some (false, st2) ∧
    filter (λ u, realJid u.2 = bare d1) (getXmppMembers st2 R) =
      [(length (room st R),
        mkXmpp anon mx (bare d1) [toString d1; toString d2])].
Proof.
  intros [Hwf1 Hl1]%user_address_wf [Hwf2 Hl2]%user_address_wf Hbare Hne Hnone.
  rewrite getXmppMemberByRealJid_jid in Hnone. injection Hnone as Hnone.
  change (Jid.stripped (bare d1)) with (Jid.stripped d1) in Hnone.
  assert (Jid.stripped d2 = Jid.stripped d1) as Hs.
  { change (Jid.stripped (bare d2) = Jid.stripped (bare d1)). by rewrite Hbare. }
  set (new := mkXmpp anon mx (bare d1) [toString d1]).
  set (st1 := <[R := room st R ++ [Xmpp new]]> st).
  assert (room st1 R = room st R ++ [Xmpp new]) as Hroom1.
  { unfold st1. rewrite room_insert. by rewrite decide_True. }
  set (st2 := mutate (devices_add (toString d2)) R (length (room st R)) st1).
  exists st1, st2. split_and!.
  - rewrite addXmppMember_unfold by done. by rewrite Hnone.
  - rewrite addXmppMember_unfold, Hs by done.
    rewrite (getXmppMembers_snoc st st1 R (Xmpp new) Hroom1). simpl.
    rewrite (array_find_snoc _ _ _ Hnone); [done |].
    simpl. by apply toString_bare.
  - assert (room st2 R = room st R ++
              [Xmpp (mkXmpp anon mx (bare d1) [toString d1; toString d2])]) as Hroom2.
    { unfold st2. rewrite room_mutate, decide_True, Hroom1 by done.
      rewrite alter_app_r_alt, Nat.sub_diag by done. simpl.
      assert (JSSet.add (toString d2) [toString d1] = [toString d1; toString d2])
        as ->; [|done].
      unfold JSSet.add. rewrite decide_False; [done |].
      intros Heq%list_elem_of_singleton. apply Hne.
      by apply toString_inj_same_bare. }
    rewrite (getXmppMembers_snoc st st2 R _ Hroom2). simpl.
    rewrite filter_app, filter_none.
    + simpl. by rewrite filter_cons_True.
    + eapply Forall_impl; [exact (array_find_None _ _ Hnone) |].
      intros [r x]. simpl. intros Hx Hb. apply Hx. rewrite Hb.
      by apply toString_bare.
Qed.

(** C10: a further [addXmppMember] for a real identity that is already in
    the room, whatever anonymous address and Matrix id it passes, answers
    [false] and changes nothing but the devices of the participant found:
    [anonymousJid], [matrixId] and [realJid] stay those of the first call,
    the devices only grow, every other member and room is untouched. *)
Theorem addXmppMember_existing_frame (st : registry) (R : string)
    (d anon' : JID) (mx' : string) (r : ref) (x : IGatewayMemberXmpp) :
  user_address d →
  getXmppMemberByRealJid st R (inr (bare d)) = Some (Some (r, x)) →
  ∃ st',
    addXmppMember st R d anon' mx' = Some (false, st') ∧
    room st R !! r = Some (Xmpp x) ∧
    room st' R =
      <[r := Xmpp (mkXmpp (x_anonymousJid x) (x_matrixId x) (realJid x)
                          (JSSet.add (toString d) (devices x)))]> (room st R) ∧
    (∀ y, y ∈ devices x → y ∈ JSSet.add (toString d) (devices x)) ∧
    (∀ R', R' ≠ R → room st' R' = room st R').
Proof.
  intros [Hwf Hl]%user_address_wf Hfind.
  rewrite getXmppMemberByRealJid_jid in Hfind. injection Hfind as Hfind.
  change (Jid.stripped (bare d)) with (Jid.stripped d) in Hfind.
  pose proof (array_find_Some _ _ _ Hfind) as [Hin%getXmppMembers_elem _].
  exists (mutate (devices_add (toString d)) R r st). split_and!.
  - rewrite addXmppMember_unfold by done. by rewrite Hfind.
  - done.
  - rewrite room_mutate, decide_True by done.
    by rewrite (list_alter_Some _ _ _ _ Hin).
  - intros y Hy. unfold JSSet.add. case_decide; [done |].
    apply elem_of_app. by left.
  - intros R' HR. rewrite room_mutate. by rewrite decide_False.
Qed.

(** C2: [removeXmppMember] on an address whose real identity is in the room.
    With a resource it removes that device and no other; when devices are
    left it answers [false] and the participant stays, when none is left it
    removes the participant and answers [true].  Without a resource it
    removes the participant and answers [true], whatever its devices. *)
Theorem removeXmppMember_devices (st : registry) (R : string)
    (addr : string + JID) (j : JID) (r : ref) (x : IGatewayMemberXmpp) :
  to_jid addr = Some j →
  getXmppMemberByRealJid st R (inr j) = Some (Some (r, x)) →
  let devs := JSSet.remove (toString j) (devices x) in
  (∀ y, y ∈ devs ↔ y ∈ devices x ∧ y ≠ toString j) ∧
  ∃ b st',
    removeXmppMember st R addr = Some (b, st') ∧
    (∀ R', R' ≠ R → room st' R' = room st R') ∧
    (Js.truthy (resource j) = true → devs ≠ [] →
       b = false ∧
       room st' R =
         <[r := Xmpp (mkXmpp (x_anonymousJid x) (x_matrixId x) (realJid x) devs)]>
           (room st R)) ∧
    (Js.truthy (resource j) = true → devs = [] →
       b = true ∧ room st' R = delete r (room st R)) ∧
    (Js.truthy (resource j) = false →
       b = true ∧ room st' R = delete r (room st R)).
Proof.
  intros Hj Hfind devs. split.
  { intros y. unfold devs, JSSet.remove. rewrite list_elem_of_filter. tauto. }
  unfold removeXmppMember. rewrite Hj. cbn -[getXmppMemberByRealJid].
  rewrite Hfind. cbn -[set_delete mutate].
  rewrite getXmppMemberByRealJid_jid in Hfind. injection Hfind as Hfind.
  pose proof (array_find_Some _ _ _ Hfind) as [Hin%getXmppMembers_elem _].
  destruct (Js.truthy (resource j)) eqn:Hres.
  - fold devs.
    set (st1 := mutate (devices_delete (toString j)) R r st).
    assert (room st1 R =
            <[r := Xmpp (mkXmpp (x_anonymousJid x) (x_matrixId x) (realJid x) devs)]>
              (room st R)) as Hroom1.
    { unfold st1. rewrite room_mutate, decide_True by done.
      by rewrite (list_alter_Some _ _ _ _ Hin). }
    assert (∀ R', R' ≠ R → room st1 R' = room st R') as Hother1.
    { intros R' HR. unfold st1. rewrite room_mutate. by rewrite decide_False. }
    case_bool_decide as Hdevs.
    + exists false, st1. split_and!; [done | done | done | |done].
      intros _ Hnil. by rewrite Hnil in Hdevs.
    + assert (devs = []) as Hnil.
      { apply length_zero_iff_nil. by destruct (decide (length devs = 0)). }
      assert (room st1 R !! r =
              Some (Xmpp (mkXmpp (x_anonymousJid x) (x_matrixId x) (realJid x) devs)))
        as Hin1.
      { rewrite Hroom1. apply list_lookup_insert_eq. by eapply lookup_lt_Some. }
      destruct (room_lookup_is_Some _ _ _ _ Hin1) as [l1 Hl1]. rewrite Hl1.
      destruct (set_delete_present _ _ _ _ Hin1) as (st' & -> & Hroom' & Hother').
      assert (room st' R = delete r (room st R)) as Hdel.
      { rewrite Hroom'. unfold st1. rewrite room_mutate, decide_True by done.
        apply list_delete_alter. }
      exists true, st'. split_and!; [done | | | done | done].
      * intros R' HR. rewrite Hother' by done. by apply Hother1.
      * intros _ Hnn. by destruct Hnn.
  - destruct (room_lookup_is_Some _ _ _ _ Hin) as [l1 Hl1]. rewrite Hl1.
    destruct (set_delete_present _ _ _ _ Hin) as (st' & -> & Hroom' & Hother').
    exists true, st'. split_and!; done.
Qed.

(** *** Uniqueness of the keys under the registry operations *)

Section unique.
Implicit Types (st : registry) (c : string) (l : list IGatewayMember) (r : ref).

Lemma array_find_None_fresh {A} (K : A → string) (L : list A) k :
  array_find (λ u, K u = k) L = None → k ∉ K <$> L.
Proof.
  intros Hf%array_find_None (u & -> & Hu)%list_elem_of_fmap.
  rewrite Forall_forall in Hf. by apply (Hf u).
Qed.

Lemma unique_keys_empty : unique_keys ∅.
Proof. intros c. rewrite room_empty. split; constructor. Qed.

Lemma NoDup_snoc_option (ks : list string) (o : option string) :
  NoDup ks → (∀ k, o = Some k → k ∉ ks) →
  NoDup (ks ++ match o with Some k => [k] | None => [] end).
Proof.
  intros Hnd Hfresh. destruct o as [k|]; [|by rewrite app_nil_r].
  apply NoDup_app. split_and!; [done | | apply NoDup_singleton].
  intros y Hy Hk%list_elem_of_singleton. apply (Hfresh k); [done |].
  by rewrite <- Hk.
Qed.

Lemma omap_snoc {A B} (f : A → option B) (l : list A) u :
  omap f (l ++ [u]) = omap f l ++ match f u with Some k => [k] | None => [] end.
Proof. rewrite omap_app. csimpl. by destruct (f u). Qed.

Lemma unique_keys_snoc st c u :
  unique_keys st →
  (∀ k, matrix_key u = Some k → k ∉ omap matrix_key (room st c)) →
  (∀ k, xmpp_key u = Some k → k ∉ omap xmpp_key (room st c)) →
  unique_keys (<[c := room st c ++ [u]]> st).
Proof.
  intros Hst Hm Hx c'. rewrite room_insert. case_decide as Hc; [|apply Hst].
  destruct (Hst c) as [Hnm Hnx]. rewrite !omap_snoc.
  split; by apply NoDup_snoc_option.
Qed.

Lemma unique_keys_mutate f c r st :
  (∀ u, matrix_key (f u) = matrix_key u) →
  (∀ u, xmpp_key (f u) = xmpp_key u) →
  unique_keys st → unique_keys (mutate f c r st).
Proof.
  intros Hm Hx Hst c'. rewrite room_mutate. case_decide as Hc; [|apply Hst].
  rewrite !omap_alter_key by done. apply Hst.
Qed.

Lemma unique_keys_set_delete c r st :
  unique_keys st → unique_keys (set_delete c r st).2.
Proof.
  intros Hst c'. rewrite room_set_delete. case_decide as Hc; [|apply Hst].
  destruct (Hst c). split; by apply omap_delete_NoDup.
Qed.

Lemma devices_add_keys d u :
  matrix_key (devices_add d u) = matrix_key u ∧
  xmpp_key (devices_add d u) = xmpp_key u.
Proof. by destruct u. Qed.

Lemma devices_delete_keys d u :
  matrix_key (devices_delete d u) = matrix_key u ∧
  xmpp_key (devices_delete d u) = xmpp_key u.
Proof. by destruct u. Qed.

Lemma addMatrixMember_unique st c mx anon :
  unique_keys st → unique_keys (addMatrixMember st c mx anon).2.
Proof.
  intros Hst. unfold addMatrixMember, getMatrixMemberByMatrixId.
  destruct (array_find _ _) as [?|] eqn:Hfind; [done |]. simpl.
  apply unique_keys_snoc; [done | | done].
  intros k [= <-]. rewrite <- getMatrixMembers_keys.
  by apply (array_find_None_fresh (λ u, m_matrixId u.2)).
Qed.

Lemma addXmppMember_unique st c d anon mx b st' :
  user_address d → unique_keys st →
  addXmppMember st c d anon mx = Some (b, st') → unique_keys st'.
Proof.
  intros [Hwf Hl]%user_address_wf Hst. rewrite addXmppMember_unfold by done.
  destruct (array_find _ _) as [[r x]|] eqn:Hfind; intros [= <- <-].
  - apply unique_keys_mutate; [apply devices_add_keys.. | done].
  - apply unique_keys_snoc; [done | done |].
    intros k [= <-]. simpl. rewrite toString_bare by done.
    rewrite <- getXmppMembers_keys.
    by apply (array_find_None_fresh (λ u, toString (realJid u.2))).
Qed.

Lemma removeMatrixMember_unique st c mx :
  unique_keys st → unique_keys (removeMatrixMember st c mx).2.
Proof.
  intros Hst. unfold removeMatrixMember.
  destruct (getMatrixMemberByMatrixId st c mx) as [[r m]|]; [|done].
  destruct (st !! c); [|done]. by apply unique_keys_set_delete.
Qed.

Lemma removeXmppMember_unique st c rj b st' :
  unique_keys st → removeXmppMember st c rj = Some (b, st') → unique_keys st'.
Proof.
  intros Hst. unfold removeXmppMember.
  destruct (to_jid rj) as [j|]; [|done]. cbn -[set_delete mutate].
  destruct (array_find _ _) as [[r x]|]; [|by intros [= <- <-]].
  assert (∀ st0, unique_keys st0 →
            unique_keys (match st0 !! c with
                         | Some _ => set_delete c r st0
                         | None => (true, st0)
                         end).2) as Hfinish.
  { intros st0 H0. destruct (st0 !! c); [|done]. by apply unique_keys_set_delete. }
  assert (unique_keys (mutate (devices_delete (toString j)) c r st)) as Hmut.
  { apply unique_keys_mutate; [apply devices_delete_keys.. | done]. }
  destruct (Js.truthy (resource j)).
  - case_bool_decide; [by intros [= <- <-] |].
    intros [= Heq]. specialize (Hfinish _ Hmut). by rewrite Heq in Hfinish.
  - intros [= Heq]. specialize (Hfinish _ Hst). by rewrite Heq in Hfinish.
Qed.

Lemma step_unique st o : user_op o → unique_keys st → unique_keys (step st o).
Proof.
  destruct o as [c mx anon|c rj anon mx|c mx|c rj]; simpl; intros Ho Hst.
  - by apply addMatrixMember_unique.
  - destruct (addXmppMember st c rj anon mx) as [[b st']|] eqn:E; [|done].
    by eapply addXmppMember_unique.
  - by apply removeMatrixMember_unique.
  - destruct (removeXmppMember st c rj) as [[b st']|] eqn:E; [|done].
    by eapply removeXmppMember_unique.
Qed.

Lemma foldl_step_unique ops st :
  Forall user_op ops → unique_keys st → unique_keys (foldl step st ops).
Proof.
  intros Hops. revert st.
  induction Hops as [|o ops Ho _ IH]; intros st Hst; simpl; [done |].
  by apply IH, step_unique.
Qed.

End unique.

(** X24: after any sequence of registry calls on a fresh registry in which
    the addresses given to [addXmppMember] are device addresses of users
    (parsed addresses with a local part), a room holds at most one Matrix
    participant per Matrix user id and at most one XMPP participant per
    real identity: the ids, and the real addresses, of its participants are
    pairwise distinct. *)
Theorem registry_unique_participants (ops : list op) (R : string) :
  Forall user_op ops →
  NoDup ((λ u, m_matrixId u.2) <$> getMatrixMembers (run ops) R) ∧
  NoDup ((λ u, realJid u.2) <$> getXmppMembers (run ops) R).
Proof.
  intros Hops.
  destruct (foldl_step_unique ops ∅ Hops unique_keys_empty R) as [Hm Hx].
  fold (run ops) in Hm, Hx. split.
  - by rewrite getMatrixMembers_keys.
  - rewrite <- getXmppMembers_keys in Hx.
    apply (NoDup_fmap_1 toString). by rewrite <- list_fmap_compose.
Qed.

(** *** The device addresses of a room *)

Lemma foldl_app_concat {A} (a : list A) (l : list (list A)) :
  foldl (λ acc val, acc ++ val) a l = a ++ concat l.
Proof.
  revert a. induction l as [|x l IH]; intros a; simpl.
  - by rewrite app_nil_r.
  - by rewrite IH, app_assoc.
Qed.

Lemma elem_of_concat {A} (x : A) (l : list (list A)) :
  x ∈ concat l ↔ ∃ a, a ∈ l ∧ x ∈ a.
Proof.
  induction l as [|a l IH]; simpl.
  - split; [by intros ?%elem_of_nil | by intros (? & ?%elem_of_nil & _)].
  - rewrite elem_of_app, IH. split.
    + intros [Hx|(b & Hb & Hx)]; [exists a | exists b]; split; try done;
        [by left | by right].
    + intros (b & [->|Hb]%elem_of_cons & Hx); [by left | right; eauto].
Qed.

Lemma JSSet_fold_add_elem (s l : list string) x :
  x ∈ foldl (λ s x, JSSet.add x s) s l ↔ x ∈ s ∨ x ∈ l.
Proof.
  revert s. induction l as [|y l IH]; intros s; simpl.
  - split; [by left | by intros [?|?%elem_of_nil]].
  - rewrite IH, elem_of_cons. unfold JSSet.add. case_decide as Hy.
    + split; [intros [?|?]; auto | intros [?|[->|?]]; auto].
    + rewrite elem_of_app, list_elem_of_singleton. tauto.
Qed.

Lemma JSSet_fold_add_NoDup (s l : list string) :
  NoDup s → NoDup (foldl (λ s x, JSSet.add x s) s l).
Proof.
  revert s. induction l as [|y l IH]; intros s Hs; simpl; [done |].
  apply IH. unfold JSSet.add. case_decide as Hy; [done |].
  apply NoDup_app. split_and!; [done | | apply NoDup_singleton].
  by intros z Hz ->%list_elem_of_singleton.
Qed.

Lemma JSSet_of_list_elem (l : list string) x : x ∈ JSSet.of_list l ↔ x ∈ l.
Proof.
  unfold JSSet.of_list. rewrite JSSet_fold_add_elem.
  split; [by intros [?%elem_of_nil|?] | by right].
Qed.

(** C9: [getXmppMembersDevices] answers exactly the union of the devices of
    the XMPP participants of the room, that is of the entries of kind
    [xmpp] in the set the registry holds for the room, as a set (no address
    twice); a room the registry does not hold has no device.  Its two
    branches, with and without [Array.prototype.flat], answer the same set,
    element for element. *)
Theorem getXmppMembersDevices_union (st : registry) (R : string) :
  getXmppMembersDevices true st R = getXmppMembersDevices false st R ∧
  ∀ FLAT_SUPPORTED,
    NoDup (getXmppMembersDevices FLAT_SUPPORTED st R) ∧
    ∀ d, d ∈ getXmppMembersDevices FLAT_SUPPORTED st R ↔
         ∃ members x, st !! R = Some members ∧ Xmpp x ∈ members ∧ d ∈ devices x.
Proof.
  assert (getXmppMembersDevices true st R = getXmppMembersDevices false st R) as Heq.
  { unfold getXmppMembersDevices. by rewrite foldl_app_concat. }
  split; [done |].
  assert (∀ x, (∃ r, (r, x) ∈ getXmppMembers st R) ↔
               ∃ members, st !! R = Some members ∧ Xmpp x ∈ members) as Hroom.
  { intros x. unfold room. split.
    - intros [r Hin%getXmppMembers_elem]. unfold room in Hin.
      destruct (st !! R) as [members|]; [|done]. exists members. split; [done |].
      by eapply list_elem_of_lookup_2.
    - intros (members & Hst & [r Hr]%list_elem_of_lookup_1). exists r.
      apply getXmppMembers_elem. unfold room. by rewrite Hst. }
  assert (NoDup (getXmppMembersDevices true st R) ∧
          ∀ d, d ∈ getXmppMembersDevices true st R ↔
               ∃ members x, st !! R = Some members ∧ Xmpp x ∈ members ∧
                            d ∈ devices x) as Htrue.
  { unfold getXmppMembersDevices. split.
    - apply JSSet_fold_add_NoDup. constructor.
    - intros d. rewrite JSSet_of_list_elem, elem_of_concat. split.
      + intros (a & ([r x] & -> & Hin)%list_elem_of_fmap & Hd).
        destruct (proj1 (Hroom x)) as (members & Hst & Hx); [by exists r |].
        by exists members, x.
      + intros (members & x & Hst & Hx & Hd).
        destruct (proj2 (Hroom x)) as [r Hin]; [by exists members |].
        exists (devices x). split; [|done].
        apply list_elem_of_fmap. by exists (r, x). }
  intros [|]; [done |]. by rewrite <- Heq.
Qed.

(** An address without local part prints as its domain alone, which the
    lookup key [`${local}@${domain}`] never equals: such addresses are
    outside the device addresses of users, and each call for one of them
    adds a participant. *)
Example domain_only_addresses_are_kept_apart :
  let d1 := mkJID EmptyString "example.com" "a" in
  let d2 := mkJID EmptyString "example.com" "b" in
  let anon := mkJID "chat" "conf.example" "bot" in
  (st1 ← addXmppMember ∅ "chat" d1 anon "@bot:hs";
   st2 ← addXmppMember st1.2 "chat" d2 anon "@bot:hs";
   Some (st1.1, st2.1, length (getXmppMembers st2.2 "chat"))) =
  Some (true, true, 2).
Proof. vm_compute. reflexivity. Qed.

(** C3: the invariant of one XMPP participant per real identity is broken
    by an address without local part.  [addXmppMember] strips the resource
    and looks the member up, but the key of the lookup,
    [`${local}@${domain}`], keeps the ['@'] that [toString] leaves out for
    an empty local part, so the member is never found: two devices of
    [example.com], as the parser gives them, are both answered [true]
    (first device), against the documentation of the function, and the
    room holds two participants with the same real address. *)
Theorem domain_only_address_added_twice :
  let d1 := mkJID EmptyString "example.com" "a" in
  let d2 := mkJID EmptyString "example.com" "b" in
  let anon := mkJID "chat" "conf.example" "bot" in
  let ops := [AddXmppMember "chat" d1 anon "@bot:hs";
              AddXmppMember "chat" d2 anon "@bot:hs"] in
  jid "example.com/a" = Some d1 ∧ jid "example.com/b" = Some d2 ∧
  (r1 ← addXmppMember ∅ "chat" d1 anon "@bot:hs";
   r2 ← addXmppMember r1.2 "chat" d2 anon "@bot:hs";
   Some (r1.1, r2.1, r2.2)) = Some (true, true, run ops) ∧
  (λ u, realJid u.2) <$> getXmppMembers (run ops) "chat" =
    [mkJID EmptyString "example.com" EmptyString;
     mkJID EmptyString "example.com" EmptyString] ∧
  ¬ NoDup ((λ u, realJid u.2) <$> getXmppMembers (run ops) "chat").
Proof.
  split_and!; [reflexivity.. |].
  intros Hnd.
  assert ((λ u : ref * IGatewayMemberXmpp, realJid u.2) <$>
            getXmppMembers
              (run [AddXmppMember "chat" (mkJID EmptyString "example.com" "a")
                      (mkJID "chat" "conf.example" "bot") "@bot:hs";
                    AddXmppMember "chat" (mkJID EmptyString "example.com" "b")
                      (mkJID "chat" "conf.example" "bot") "@bot:hs"]) "chat" =
          [mkJID EmptyString "example.com" EmptyString;
           mkJID EmptyString "example.com" EmptyString]) as Heq by reflexivity.
  rewrite Heq in Hnd. apply NoDup_cons in Hnd as [Hfresh _].
  apply Hfresh. by left.
Qed.

(** ** Properties of the encoder and of the readers *)

Section encoding.
Implicit Types (c : ascii) (s r : string).

Lemma strip_prefix_app p s : Xml.strip_prefix p (p +:+ s) = Some s.
Proof.
  induction p as [|a p IH]; simpl; [by destruct s |].
  by rewrite Ascii.eqb_refl.
Qed.

Lemma strip_prefix_app_app p q s :
  Xml.strip_prefix (p +:+ q) (p +:+ s) = Xml.strip_prefix q s.
Proof.
  induction p as [|a p IH]; simpl; [done |].
  by rewrite Ascii.eqb_refl.
Qed.

Lemma replace_app re f s r :
  He.replace re f (s +:+ r) = He.replace re f s +:+ He.replace re f r.
Proof.
  induction s as [|a s IH]; simpl; [done |].
  by rewrite IH, append_assoc.
Qed.

Lemma encode_cons c s :
  He.encode (String c s) = He.encode (String c EmptyString) +:+ He.encode s.
Proof.
  unfold He.encode. simpl. rewrite append_nil_r. apply replace_app.
Qed.

(** The encoding of one code unit is the unit itself or a character
    reference; either way it is free of raw markup. *)
Lemma encode_unit_safe c r :
  Xml.entity_safe (He.encode (String c EmptyString) +:+ r) = Xml.entity_safe r.
Proof. by destruct c as [[] [] [] [] [] [] [] []]. Qed.

Lemma encode_unit_truthy c r :
  Js.truthy (He.encode (String c EmptyString) +:+ r) = true.
Proof. by destruct c as [[] [] [] [] [] [] [] []]. Qed.

Lemma entity_safe_encode s : Xml.entity_safe (He.encode s) = true.
Proof.
  induction s as [|c s IH]; [done |].
  by rewrite encode_cons, encode_unit_safe.
Qed.

Lemma encode_truthy s : Js.truthy s = true → Js.truthy (He.encode s) = true.
Proof.
  destruct s as [|c s]; [done |]. intros _.
  rewrite encode_cons. apply encode_unit_truthy.
Qed.

(** Text free of raw markup holds no quote of either kind and no ['<']. *)
Lemma entity_safe_occurs s :
  Xml.entity_safe s = true →
  Js.occurs He.dquote s = false ∧ Js.occurs "'" s = false ∧
  Js.occurs "<" s = false ∧ Js.occurs ">" s = false.
Proof.
  induction s as [|c s IH]; [done |]. simpl.
  intros [Hc Hs]%andb_true_iff. destruct (IH Hs) as (H1 & H2 & H3 & H4).
  destruct (Ascii.eqb_spec c "&") as [->|Hamp]; [done |].
  apply negb_true_iff in Hc. repeat apply orb_false_iff in Hc as [Hc ?].
  rewrite H1, H2, H3, H4.
  repeat match goal with H : Ascii.eqb _ _ = false |- _ => rewrite H; clear H end.
  done.
Qed.

Lemma encode_no_dquote s : Js.occurs He.dquote (He.encode s) = false.
Proof. apply entity_safe_occurs, entity_safe_encode. Qed.

Lemma encode_no_apostrophe s : Js.occurs "'" (He.encode s) = false.
Proof. apply entity_safe_occurs, entity_safe_encode. Qed.

Lemma encode_no_lt s : Js.occurs "<" (He.encode s) = false.
Proof. apply entity_safe_occurs, entity_safe_encode. Qed.

End encoding.

(** ** Properties of the stanza builders *)

Section base.

Lemma get_from_new from to id : get_from (StzaBase_new from to id) = He.encode from.
Proof. by destruct id as [[|??]|]. Qed.

Lemma get_to_new from to id : get_to (StzaBase_new from to id) = He.encode to.
Proof. by destruct id as [[|??]|]. Qed.

Lemma get_id_new from to id :
  get_id (StzaBase_new from to id) =
  if Js.truthy_opt id then He.encode <$> id else None.
Proof.
  destruct id as [v|]; [|done]. unfold StzaBase_new, set_id, get_id. simpl.
  destruct (Js.truthy v) eqn:Hv; [|done]. simpl.
  by rewrite (encode_truthy _ Hv).
Qed.

End base.

Ltac read_value :=
  unfold Xml.read_attr; simpl; rewrite ?append_assoc; simpl;
  rewrite break_app
    by first [apply encode_no_dquote | apply encode_no_apostrophe | assumption];
  simpl.

Section builders.


End builders.

Ltac read_text :=
  unfold Xml.read_element; simpl; rewrite ?append_assoc; simpl;
  rewrite break_app by first [apply encode_no_lt | assumption];
  simpl.

Section more_builders.

#[local] Arguments message_type_attr : simpl never.

Lemma get_from_set_id v b : get_from (set_id v b) = get_from b.
Proof. by destruct v as [[|??]|]. Qed.

Lemma get_to_set_id v b : get_to (set_id v b) = get_to b.
Proof. by destruct v as [[|??]|]. Qed.

Lemma entity_safe_tpl_get_id from to id :
  Xml.entity_safe (tpl (get_id (StzaBase_new from to id))) = true.
Proof.
  rewrite get_id_new. destruct (Js.truthy_opt id); [|done].
  destruct id; [apply entity_safe_encode | done].
Qed.

Lemma get_id_set_id v b :
  Js.truthy v = true → get_id (set_id (Some v) b) = Some (He.encode v).
Proof.
  intros Hv. unfold set_id, get_id. rewrite Hv. simpl.
  by rewrite (encode_truthy _ Hv).
Qed.

Lemma set_id_falsy v b : Js.truthy_opt v = false → set_id v b = b.
Proof. destruct v as [v|]; [|done]. simpl. unfold set_id. by intros ->. Qed.

(** The base object of a message: the id given goes through the setter, and
    then the id read back, or else the fresh token, goes through it again. *)
Lemma message_base uuid from to idOrMsg mt :
  let given :=
    match idOrMsg with
    | Some (inl s) => Some s
    | Some (inr msg) => msg_id msg
    | None => None
    end in
  let b := set_id given (StzaBase_new from to None) in
  m_base (StzaMessage_new uuid from to idOrMsg mt) =
  set_id (if Js.truthy_opt (get_id b) then get_id b else Some uuid) b.
Proof.
  unfold StzaMessage_new. destruct idOrMsg as [[s|msg]|]; [|done..].
  cbv zeta. destruct (Js.truthy s) eqn:Hs; [done |].
  by rewrite (set_id_falsy (Some s)).
Qed.

(** The id a message ends up with: the id given, through the setter twice,
    or else the fresh token. *)
Lemma message_get_id uuid from to idOrMsg mt :
  let given :=
    match idOrMsg with
    | Some (inl s) => Some s
    | Some (inr msg) => msg_id msg
    | None => None
    end in
  get_id (m_base (StzaMessage_new uuid from to idOrMsg mt)) =
  if Js.truthy_opt given then He.encode <$> (He.encode <$> given)
  else if Js.truthy uuid then Some (He.encode uuid) else None.
Proof.
  intros given. rewrite message_base. fold given.
  destruct (Js.truthy_opt given) eqn:Hg.
  - destruct given as [v|]; [|done]. simpl in Hg.
    rewrite (get_id_set_id _ _ Hg). simpl. rewrite (encode_truthy _ Hg).
    rewrite get_id_set_id; [done | by apply encode_truthy].
  - rewrite (set_id_falsy _ _ Hg).
    change (get_id (StzaBase_new from to None)) with (@None string).
    change (Js.truthy_opt None) with false. cbv iota.
    destruct (Js.truthy uuid) eqn:Hu.
    + by apply get_id_set_id.
    + by rewrite (set_id_falsy (Some uuid)).
Qed.

Lemma message_base_from uuid from to idOrMsg mt :
  get_from (m_base (StzaMessage_new uuid from to idOrMsg mt)) = He.encode from ∧
  get_to (m_base (StzaMessage_new uuid from to idOrMsg mt)) = He.encode to.
Proof.
  rewrite message_base. by rewrite !get_from_set_id, !get_to_set_id.
Qed.

Lemma message_id_safe uuid from to idOrMsg mt :
  Xml.entity_safe
    (tpl (get_id (m_base (StzaMessage_new uuid from to idOrMsg mt)))) = true.
Proof.
  rewrite message_get_id.
  destruct (Js.truthy_opt _).
  - destruct idOrMsg as [[s|msg]|]; simpl; [apply entity_safe_encode | | done].
    destruct (msg_id msg); [apply entity_safe_encode | done].
  - destruct (Js.truthy uuid); [apply entity_safe_encode | done].
Qed.

(** Reading a rendered message back. *)
Lemma message_read (m : StzaMessage) :
  Xml.entity_safe (tpl (get_id (m_base m))) = true →
  Js.occurs He.dquote (get_from (m_base m)) = false →
  Js.occurs He.dquote (get_to (m_base m)) = false →
  Xml.read_message (" " +:+ message_type_attr m +:+ ">" +:+ html m)
                   (StzaMessage_xml m).1 =
  Some ([get_from (m_base m); get_to (m_base m); tpl (get_id (m_base m))],
        He.encode (body (StzaMessage_xml m).2)).
Proof.
  intros Hid%entity_safe_occurs Hf Ht. destruct Hid as (Hid & _).
  unfold StzaMessage_xml, Xml.read_message, Xml.read_open, dq.
  assert (message_type_attr
            match attachments m with
            | [a] => mkMessage (m_base m) (html m) a (attachments m) (messageType m)
            | _ => m
            end = message_type_attr m) as Ety.
  { by destruct (attachments m) as [|? [|??]]. }
  assert (∀ (A : Type) (f : StzaMessage → A),
            (∀ b h x a t, f (mkMessage b h x a t) = f (mkMessage b h (body m) a t)) →
            f match attachments m with
              | [a] => mkMessage (m_base m) (html m) a (attachments m) (messageType m)
              | _ => m
              end = f m) as Hsame.
  { intros A f Hf'. destruct m as [b h x a t]. simpl.
    destruct a as [|? [|??]]; [done | apply Hf' | done]. }
  rewrite (Hsame _ m_base), (Hsame _ html) by done. simpl.
  do 3 read_value.
  rewrite strip_prefix_app_app. simpl. rewrite strip_prefix_app. simpl.
  read_text. done.
Qed.

End more_builders.

Section iq_builders.

Lemma tpl_get_id_quotes from to id :
  Js.occurs He.dquote (tpl (get_id (StzaBase_new from to id))) = false ∧
  Js.occurs "'" (tpl (get_id (StzaBase_new from to id))) = false.
Proof.
  pose proof (entity_safe_occurs _ (entity_safe_tpl_get_id from to id)). tauto.
Qed.

(** Every presence constructor builds its base object from [from], [to] and
    an id through the setters of [StzaBase]. *)
Lemma presence_constructors_base from to id pt aff role self jid itemType
    eid by_ errType innerError :
  p_base (StzaPresence_new from to id pt) = StzaBase_new from to id ∧
  p_base (StzaPresenceItem_new from to id aff role self jid itemType) =
    StzaBase_new from to id ∧
  p_base (StzaPresenceError_new from to eid by_ errType innerError) =
    StzaBase_new from to (Some eid) ∧
  p_base (StzaPresenceJoin_new from to id pt) = StzaBase_new from to id ∧
  p_base (StzaPresencePart_new from to) = StzaBase_new from to None.
Proof. done. Qed.


Lemma subject_open from to id subject :
  Xml.read_open "message" ["from"; "to"; "id"] He.dquote
    (StzaMessageSubject_xml (StzaMessageSubject_new from to id subject)) =
  Some ([He.encode from; He.encode to; tpl (get_id (StzaBase_new from to id))],
        " type='groupchat'><subject>" +:+ default EmptyString subject
        +:+ "</subject></message>").
Proof.
  destruct (tpl_get_id_quotes from to id) as [Hq _].
  unfold StzaMessageSubject_xml, StzaMessageSubject_new. cbn [s_base].
  rewrite (get_from_new from to id), (get_to_new from to id).
  unfold Xml.read_open, dq. simpl. do 3 read_value. done.
Qed.




End iq_builders.


(** C7: a message built from a message record renders, as the content of
    its [<body>] element, the encoded URL of the attachment when the record
    has exactly one attachment, whatever body text it supplies, and the
    encoded body text of the record otherwise; rendering leaves the body of
    the stanza set accordingly. *)
Theorem message_body_single_attachment
    (uuid from to : string) (msg : IBasicProtocolMessage) (mt : option string) :
  let m := StzaMessage_new uuid from to (Some (inr msg)) mt in
  let urls :=
    match msg_opts msg with
    | Some opts => map uri (default [] (o_attachments opts))
    | None => []
    end in
  let effective := match urls with [a] => a | _ => msg_body msg end in
  snd <$> Xml.read_message (" " +:+ message_type_attr m +:+ ">" +:+ html m)
                           (StzaMessage_xml m).1 =
    Some (He.encode effective) ∧
  body (StzaMessage_xml m).2 = effective.
Proof.
  intros m urls effective.
  destruct (message_base_from uuid from to (Some (inr msg)) mt) as [Hf Ht].
  assert (body (StzaMessage_xml m).2 = effective) as Hbody.
  { unfold effective, urls, m, StzaMessage_new, StzaMessage_xml, m_set_id. simpl.
    destruct (msg_opts msg) as [opts|]; simpl; [|done].
    by destruct (map uri (default [] (o_attachments opts))) as [|? [|??]]. }
  split; [|done]. subst m. rewrite message_read.
  - by rewrite Hbody.
  - apply message_id_safe.
  - rewrite Hf. apply encode_no_dquote.
  - rewrite Ht. apply encode_no_dquote.
Qed.

(** X25: what a reader finds in the [<item/>] of a presence item whose
    affiliation, [jid] and role hold no apostrophe: the three values as
    they were given, and no [jid] attribute at all when the [jid] is
    empty or left out. *)
Theorem presence_item_jid_attribute
    (from to : string) (id aff role : option string) (self : option bool)
    (jid itemType : option string) :
  let p := StzaPresenceItem_new from to id aff role self jid itemType in
  let aff' := default "member" aff in
  let role' := default "participant" role in
  let jid' := default EmptyString jid in
  Js.occurs "'" aff' = false → Js.occurs "'" jid' = false →
  Js.occurs "'" role' = false →
  Xml.read_item (xContent p) =
    Some (aff', (if Js.truthy jid' then Some jid' else None), role').
Proof.
  intros p aff' role' jid' Ha Hj Hr. subst p.
  unfold StzaPresenceItem_new, xContent. cbn [p_class].
  fold aff' role' jid'. clearbody aff' role' jid'.
  unfold Xml.read_item. simpl.
  destruct (Js.truthy jid') eqn:Hjid; simpl.
  - do 3 read_value. by destruct (default false self).
  - do 2 read_value. by destruct (default false self).
Qed.

Lemma presence_item_jid_attribute_witness :
  Xml.read_item (xContent (StzaPresenceItem_new "chat@conf.example/alice"
                             "bob@xmpp.example/phone" None None None None
                             (Some "alice@xmpp.example/desk") None)) =
  Some ("member", Some "alice@xmpp.example/desk", "participant").
Proof.
  apply (presence_item_jid_attribute "chat@conf.example/alice"
           "bob@xmpp.example/phone" None None None None
           (Some "alice@xmpp.example/desk") None); reflexivity.
Defined.

(** C6: the [jid] of a presence item is not encoded.  [xContent] copies
    [this.jid] into the attribute as it is, while the setters of the same
    stanza encode [from] and [to]: an ampersand in the [jid] reaches the
    text raw, where the same address given as [to] is written with a
    character reference, and an apostrophe in the [jid] ends the attribute
    and lets the rest of the [jid] be read as further attributes of the
    item. *)
Theorem presence_item_jid_not_encoded :
  xContent Sample.item_with_jid =
    "<item affiliation='member' jid='bob@xmpp.example/R&D' role='participant'/>" ∧
  Xml.read_item (xContent Sample.item_with_jid) =
    Some ("member", Some "bob@xmpp.example/R&D", "participant") ∧
  Xml.read_item (xContent Sample.item_with_jid) ≠
    Some ("member", Some (He.encode "bob@xmpp.example/R&D"), "participant") ∧
  get_to (p_base (StzaPresenceItem_new "chat@conf.example/alice"
                    "bob@xmpp.example/R&D" None None None None
                    (Some "bob@xmpp.example/R&D") None)) =
    "bob@xmpp.example/R&#x26;D" ∧
  xContent (StzaPresenceItem_new "chat@conf.example/alice" "bob@xmpp.example/phone"
              None None None None (Some "x' role='moderator") None) =
    "<item affiliation='member' jid='x' role='moderator' role='participant'/>".
Proof. split_and!; [reflexivity | reflexivity | discriminate | reflexivity..]. Qed.

Section disco.
Implicit Types (h : heap) (s : StzaIqDiscoInfo).

Lemma identityContent_heap_app h o (l : list obj_ref) acc :
  Forall (λ r, r < length h) l →
  foldl (λ acc r, match (h ++ [o]) !! r with
                  | Some ident => acc +:+ identity_element ident
                  | None => acc
                  end) acc l =
  foldl (λ acc r, match h !! r with
                  | Some ident => acc +:+ identity_element ident
                  | None => acc
                  end) acc l.
Proof.
  intros Hl. revert acc. induction Hl as [|r l Hr _ IH]; intros acc; simpl; [done |].
  by rewrite IH, lookup_app_l.
Qed.

Lemma feature_add_present s f : f ∈ feature s → feature_add f s = s.
Proof.
  intros Hf. unfold feature_add, JSSet.add. rewrite decide_True by done.
  by destruct s.
Qed.

Lemma identity_add_present s r : r ∈ identity s → identity_add r s = s.
Proof.
  intros Hr. unfold identity_add. rewrite decide_True by done.
  by destruct s.
Qed.

Lemma feature_add_elem s f : f ∈ feature (feature_add f s).
Proof.
  unfold feature_add, JSSet.add. simpl. case_decide; [done |].
  apply elem_of_app. right. by apply list_elem_of_singleton.
Qed.

Lemma identity_add_elem s r : r ∈ identity (identity_add r s).
Proof.
  unfold identity_add. simpl. case_decide; [done |].
  apply elem_of_app. right. by apply list_elem_of_singleton.
Qed.

End disco.

(** C8: the text of a disco-info answer is a function of the stanza and of
    the objects it refers to, which rendering does not change.  Adding a
    feature string or an identity object a second time changes nothing, and
    adding one that is in the set leaves the stanza and so its text as they
    are.  The set of identities holds references: an object literal is a new
    object, and adding it appends one [<identity/>] element, whatever its
    fields. *)
Theorem disco_info_set_semantics (h : heap) (s : StzaIqDiscoInfo) :
  (∀ f, StzaIqDiscoInfo_xml h (feature_add f (feature_add f s)) =
        StzaIqDiscoInfo_xml h (feature_add f s)) ∧
  (∀ r, StzaIqDiscoInfo_xml h (identity_add r (identity_add r s)) =
        StzaIqDiscoInfo_xml h (identity_add r s)) ∧
  (∀ f, f ∈ feature s →
        StzaIqDiscoInfo_xml h (feature_add f s) = StzaIqDiscoInfo_xml h s) ∧
  (∀ r, r ∈ identity s →
        StzaIqDiscoInfo_xml h (identity_add r s) = StzaIqDiscoInfo_xml h s) ∧
  (∀ o, Forall (λ r, r < length h) (identity s) →
        let hs := identity_add_literal o (h, s) in
        identityContent hs.1 hs.2 = identityContent h s +:+ identity_element o ∧
        featureContent hs.2 = featureContent s).
Proof.
  split_and!.
  - intros f. by rewrite (feature_add_present _ _ (feature_add_elem s f)).
  - intros r. by rewrite (identity_add_present _ _ (identity_add_elem s r)).
  - intros f Hf. by rewrite feature_add_present.
  - intros r Hr. by rewrite identity_add_present.
  - intros o Hall hs. subst hs. unfold identity_add_literal, alloc. simpl.
    split; [|done]. unfold identity_add, identityContent. simpl.
    rewrite decide_False; last first.
    { intros Hin. rewrite Forall_forall in Hall. specialize (Hall _ Hin). lia. }
    rewrite foldl_app. simpl.
    rewrite (list_lookup_middle h [] o (length h) eq_refl).
    by rewrite identityContent_heap_app.
Qed.

Lemma disco_info_set_semantics_witness :
  StzaIqDiscoInfo_xml Sample.disco1.1 (identity_add 0 Sample.disco1.2) =
  StzaIqDiscoInfo_xml Sample.disco1.1 Sample.disco1.2 ∧
  identityContent Sample.disco2.1 Sample.disco2.2 =
  identityContent Sample.disco1.1 Sample.disco1.2 +:+
  identity_element Sample.conference.
Proof.
  destruct (disco_info_set_semantics Sample.disco1.1 Sample.disco1.2)
    as (_ & _ & _ & Hsame & Hnew).
  split.
  - apply Hsame. vm_compute. left.
  - apply (Hnew Sample.conference). vm_compute. repeat constructor.
Defined.

(** The same triple added twice, each time as an object literal, is
    rendered twice. *)
Lemma disco_info_identity_twice :
  Xml.count "<identity " (StzaIqDiscoInfo_xml Sample.disco1.1 Sample.disco1.2) = 1 ∧
  Xml.count "<identity " (StzaIqDiscoInfo_xml Sample.disco2.1 Sample.disco2.2) = 2.
Proof. split; vm_compute; reflexivity. Qed.

(** ** The properties at the sample data *)

Lemma addMatrixMember_twice_witness :
  addMatrixMember Sample.alice_joined Sample.chat Sample.alice Sample.alice_anon =
    (false, Sample.alice_joined) ∧
  filter (λ u, m_matrixId u.2 = Sample.alice)
         (getMatrixMembers Sample.alice_joined Sample.chat) =
    [(0, mkMatrix Sample.alice_anon Sample.alice)].
Proof.
  exact (addMatrixMember_twice ∅ Sample.alice_joined Sample.chat Sample.alice
           Sample.alice_anon eq_refl).
Defined.

Lemma user_address_bob_phone : user_address Sample.bob_phone.
Proof. split; [by exists "bob@xmpp.example/phone" | reflexivity]. Defined.

Lemma user_address_bob_laptop : user_address Sample.bob_laptop.
Proof. split; [by exists "bob@xmpp.example/laptop" | reflexivity]. Defined.

Lemma addXmppMember_two_devices_witness :
  ∃ st1 st2,
    addXmppMember ∅ Sample.chat Sample.bob_phone Sample.bob_anon "@_xmpp_bob:hs" =
      Some (true, st1) ∧
    addXmppMember st1 Sample.chat Sample.bob_laptop Sample.bob_anon "@_xmpp_bob:hs" =
      Some (false, st2) ∧
    filter (λ u, realJid u.2 = bare Sample.bob_phone) (getXmppMembers st2 Sample.chat) =
      [(0, Sample.bob_member ["bob@xmpp.example/phone"; "bob@xmpp.example/laptop"])].
Proof.
  assert (Sample.bob_phone ≠ Sample.bob_laptop) as Hne by discriminate.
  exact (addXmppMember_two_devices ∅ Sample.chat Sample.bob_phone Sample.bob_laptop
           Sample.bob_anon "@_xmpp_bob:hs" user_address_bob_phone
           user_address_bob_laptop eq_refl Hne eq_refl).
Defined.

Lemma addXmppMember_existing_frame_witness :
  ∃ st',
    addXmppMember Sample.bob_joined Sample.chat Sample.bob_laptop Sample.alice_anon
                  "@someone:else" = Some (false, st') ∧
    room st' Sample.chat =
      [Xmpp (Sample.bob_member ["bob@xmpp.example/phone"; "bob@xmpp.example/laptop"])].
Proof.
  destruct (addXmppMember_existing_frame Sample.bob_joined Sample.chat
              Sample.bob_laptop Sample.alice_anon "@someone:else" 0
              (Sample.bob_member ["bob@xmpp.example/phone"])
              user_address_bob_laptop eq_refl)
    as (st' & Hadd & _ & Hroom & _).
  exists st'. split; [exact Hadd |]. rewrite Hroom. reflexivity.
Defined.

Lemma removeXmppMember_devices_witness :
  ∃ st',
    removeXmppMember Sample.two_devices Sample.chat (inl "bob@xmpp.example/phone") =
      Some (false, st') ∧
    room st' Sample.chat = [Xmpp (Sample.bob_member ["bob@xmpp.example/laptop"])].
Proof.
  destruct (removeXmppMember_devices Sample.two_devices Sample.chat
              (inl "bob@xmpp.example/phone") Sample.bob_phone 0
              (Sample.bob_member ["bob@xmpp.example/phone"; "bob@xmpp.example/laptop"])
              eq_refl eq_refl)
    as (_ & b & st' & Hrm & _ & Hleft & _).
  destruct (Hleft eq_refl) as [-> Hroom]; [discriminate |].
  exists st'. split; [exact Hrm |]. rewrite Hroom. reflexivity.
Defined.

Lemma registry_unique_participants_witness :
  NoDup ((λ u, m_matrixId u.2) <$> getMatrixMembers (run Sample.session) Sample.chat) ∧
  NoDup ((λ u, realJid u.2) <$> getXmppMembers (run Sample.session) Sample.chat).
Proof.
  apply (registry_unique_participants Sample.session Sample.chat).
  repeat (apply Forall_cons_2 || apply Forall_nil_2); try exact I.
  - exact user_address_bob_phone.
  - exact user_address_bob_laptop.
Defined.

(** The scenario of the specification: Alice joins, and the presence sent
    for the join asks for no history. *)
Example scenario_alice_joins :
  (addMatrixMember ∅ Sample.chat Sample.alice Sample.alice_anon).1 = true ∧
  length (getMatrixMembers Sample.alice_joined Sample.chat) = 1 ∧
  Xml.count "<history maxchars='0'/>"
    (StzaPresence_xml (StzaPresenceJoin_new "chat@conf.example/alice"
                                            "alice@xmpp.example/res1" None None)) = 1.
Proof. repeat split; vm_compute; reflexivity. Qed.

(** Removing the two devices of Bob one after the other: the first call
    answers [false], the second [true], and Bob is gone. *)
Example scenario_bob_leaves :
  (r1 ← removeXmppMember Sample.two_devices Sample.chat (inr Sample.bob_laptop);
   r2 ← removeXmppMember r1.2 Sample.chat (inl "bob@xmpp.example/phone");
   found ← getXmppMemberByRealJid r2.2 Sample.chat (inl "bob@xmpp.example");
   Some (r1.1, r2.1, found)) = Some (false, true, None).
Proof. vm_compute. reflexivity. Qed.

(** The text of a message with one attachment. *)
Example scenario_message_attachment :
  (StzaMessage_xml
     (StzaMessage_new "f3a9" "chat@conf.example/alice" "bob@xmpp.example/phone"
        (Some (inr (mkMsg "see <this>" None
                          (Some (mkOpts (Some [mkAttachment "http://hs/f?a=1&b=2"])))
                          (Some "m1"))))
        (Some "groupchat"))).1 =
  "<message from=" +:+ dq +:+ "chat@conf.example/alice" +:+ dq +:+ " to=" +:+ dq
  +:+ "bob@xmpp.example/phone" +:+ dq +:+ " id=" +:+ dq +:+ "m1" +:+ dq
  +:+ " type='groupchat'><body>http://hs/f?a=1&#x26;b=2</body>"
  +:+ "<x xmlns='jabber:x:oob'><url>http://hs/f?a=1&#x26;b=2</url></x></message>".
Proof. vm_compute. reflexivity. Qed.


(** * Further properties of the registry *)

Section find.
Context {A : Type} (P : A → Prop) `{∀ x, Decision (P x)}.

Lemma array_find_nil : array_find P [] = None.
Proof. done. Qed.

Lemma array_find_cons x (l : list A) :
  array_find P (x :: l) = if decide (P x) then Some x else array_find P l.
Proof.
  unfold array_find. simpl. case_decide; [done |].
  destruct (list_find P l) as [[i y]|]; done.
Qed.

Lemma array_find_None_iff (l : list A) :
  array_find P l = None ↔ ∀ x, x ∈ l → ¬ P x.
Proof.
  unfold array_find. rewrite fmap_None, list_find_None, Forall_forall. done.
Qed.

Lemma array_find_app_l (l k : list A) x :
  array_find P l = Some x → array_find P (l ++ k) = Some x.
Proof.
  unfold array_find. intros [[i y] [Hf ->]]%fmap_Some.
  by rewrite (list_find_app_l _ _ _ _ _ Hf).
Qed.

End find.

Section typed_find.
Context {B : Type} (g : IGatewayMember → option B).
Context (P : B → Prop) `{∀ b, Decision (P b)}.
Implicit Types (l : list IGatewayMember) (r : ref).

(** The first member of a kind that satisfies [P]: its reference is its
    position, and no member of the kind before it satisfies [P]. *)
Lemma members_find_iff (f : nat → nat) l r b :
  array_find (λ u, P u.2)
    (omap (λ s, pair s.1 <$> g s.2) (imap (λ i, pair (f i)) l)) = Some (r, b) ↔
  ∃ i u, r = f i ∧ l !! i = Some u ∧ g u = Some b ∧ P b ∧
         ∀ j u' b', j < i → l !! j = Some u' → g u' = Some b' → ¬ P b'.
Proof.
  revert f. induction l as [|u0 l IH]; intros f.
  { split; [done | by intros (i & u & _ & ? & _)]. }
  rewrite imap_cons. csimpl.
  assert (∀ i u, (u0 :: l) !! S i = Some u ↔ l !! i = Some u) as Hcons by done.
  destruct (g u0) as [b0|] eqn:Hg0; csimpl.
  - rewrite array_find_cons. simpl. case_decide as HP0.
    + split.
      * intros [= <- <-]. exists 0, u0. split_and!; try done. intros j ??. lia.
      * intros ([|i] & u & -> & Hl & Hg & HP & Hleast).
        -- simpl in Hl. by simplify_eq.
        -- exfalso. apply (Hleast 0 u0 b0); [lia | done | done | done].
    + rewrite (IH (f ∘ S)). split.
      * intros (i & u & -> & Hl & Hg & HP & Hleast).
        exists (S i), u. split_and!; try done.
        intros [|j] u' b' Hj Hl' Hg'.
        -- simpl in Hl'. by simplify_eq.
        -- apply (Hleast j u' b'); [lia | done | done].
      * intros ([|i] & u & -> & Hl & Hg & HP & Hleast).
        -- simpl in Hl. by simplify_eq.
        -- exists i, u. split_and!; try done.
           intros j u' b' Hj Hl' Hg'. apply (Hleast (S j) u' b'); [lia | done | done].
  - rewrite (IH (f ∘ S)). split.
    + intros (i & u & -> & Hl & Hg & HP & Hleast).
      exists (S i), u. split_and!; try done.
      intros [|j] u' b' Hj Hl' Hg'.
      * simpl in Hl'. by simplify_eq.
      * apply (Hleast j u' b'); [lia | done | done].
    + intros ([|i] & u & -> & Hl & Hg & HP & Hleast).
      * simpl in Hl. by simplify_eq.
      * exists i, u. split_and!; try done.
        intros j u' b' Hj Hl' Hg'. apply (Hleast (S j) u' b'); [lia | done | done].
Qed.

Lemma members_find_iff' l (r : nat) b :
  array_find (λ u, P u.2) (omap (λ s, pair s.1 <$> g s.2) (imap pair l)) = Some (r, b) ↔
  ∃ u, l !! r = Some u ∧ g u = Some b ∧ P b ∧
       ∀ j u' b', j < r → l !! j = Some u' → g u' = Some b' → ¬ P b'.
Proof.
  pose proof (members_find_iff id l r b) as Hiff. simpl in Hiff.
  split.
  - intros Hf. apply Hiff in Hf as (i & u & -> & Hrest). eauto.
  - intros (u & Hrest). apply Hiff. eauto.
Qed.

Lemma members_find_None_iff l :
  array_find (λ u, P u.2) (omap (λ s, pair s.1 <$> g s.2) (imap pair l)) = None ↔
  ∀ i u b, l !! i = Some u → g u = Some b → ¬ P b.
Proof.
  rewrite array_find_None_iff. split.
  - intros Hall i u b Hl Hg. apply (Hall (i, b)). apply members_elem. eauto.
  - intros Hall [i b] (u & Hl & Hg)%members_elem. by eapply Hall.
Qed.

Lemma members_length (f : nat → nat) l :
  length (omap (λ s, pair s.1 <$> g s.2) (imap (λ i, pair (f i)) l)) =
  length (omap g l).
Proof. by rewrite <- (members_snd g f l), length_fmap. Qed.

End typed_find.

Section lookups.
Implicit Types (st : registry) (c R : string) (l : list IGatewayMember) (r : nat).

Lemma getMembers_elem st R r u :
  (r, u) ∈ getMembers st R ↔ room st R !! r = Some u.
Proof.
  unfold getMembers. rewrite elem_of_lookup_imap. split.
  - by intros (i & y & [= -> ->] & Hl).
  - intros Hl. by exists r, u.
Qed.

(** [Array.prototype.find] on all the members: the first member that
    satisfies the predicate. *)
Lemma getMembers_find_iff st R (P : IGatewayMember → Prop) `{∀ u, Decision (P u)} r u :
  array_find (λ s, P s.2) (getMembers st R) = Some (r, u) ↔
  room st R !! r = Some u ∧ P u ∧
  ∀ j u', j < r → room st R !! j = Some u' → ¬ P u'.
Proof.
  unfold array_find, getMembers. rewrite fmap_Some. split.
  - intros ([i [r' u']] & (Hl & HP & Hleast)%list_find_Some & [= -> ->]).
    rewrite list_lookup_imap in Hl. apply fmap_Some in Hl as (y & Hl & [= -> ->]).
    split_and!; try done. intros j u' Hj Hl'.
    apply (Hleast j (j, u')); [|done]. by rewrite list_lookup_imap, Hl'.
  - intros (Hl & HP & Hleast). exists (r, (r, u)). split; [|done].
    apply list_find_Some. split_and!; try done.
    + by rewrite list_lookup_imap, Hl.
    + intros j [j' u'] Hl' Hj. rewrite list_lookup_imap in Hl'.
      apply fmap_Some in Hl' as (y & Hl' & [= -> ->]). by eapply Hleast.
Qed.

End lookups.

Section typed_lookups.
Implicit Types (st : registry) (c R U : string) (l : list IGatewayMember) (r : nat).

Lemma getMatrixMemberByMatrixId_iff st R U r m :
  getMatrixMemberByMatrixId st R U = Some (r, m) ↔
  room st R !! r = Some (Matrix m) ∧ m_matrixId m = U ∧
  ∀ j m', j < r → room st R !! j = Some (Matrix m') → m_matrixId m' ≠ U.
Proof.
  pose proof (members_find_iff' as_matrix (λ m, m_matrixId m = U) (room st R) r m)
    as Hiff.
  unfold getMatrixMemberByMatrixId, getMatrixMembers, getMembers, ref.
  etrans; [exact Hiff |]. split.
  - intros (u & Hl & Hg & HP & Hleast).
    destruct u as [m0|x0]; simplify_eq/=. split_and!; try done.
    intros j m' Hj Hl'. by apply (Hleast j (Matrix m') m').
  - intros (Hl & HP & Hleast). exists (Matrix m). split_and!; try done.
    intros j [m0|x0] b' Hj Hl' [= <-]. by eapply Hleast.
Qed.

Lemma getXmppMemberByMatrixId_iff st R U r x :
  getXmppMemberByMatrixId st R U = Some (r, x) ↔
  room st R !! r = Some (Xmpp x) ∧ x_matrixId x = U ∧
  ∀ j x', j < r → room st R !! j = Some (Xmpp x') → x_matrixId x' ≠ U.
Proof.
  pose proof (members_find_iff' as_xmpp (λ x, x_matrixId x = U) (room st R) r x)
    as Hiff.
  unfold getXmppMemberByMatrixId, getXmppMembers, getMembers, ref.
  etrans; [exact Hiff |]. split.
  - intros (u & Hl & Hg & HP & Hleast).
    destruct u as [m0|x0]; simplify_eq/=. split_and!; try done.
    intros j x' Hj Hl'. by apply (Hleast j (Xmpp x') x').
  - intros (Hl & HP & Hleast). exists (Xmpp x). split_and!; try done.
    intros j [m0|x0] b' Hj Hl' [= <-]. by eapply Hleast.
Qed.

Lemma getXmppMemberByRealJid_iff st R d r x :
  getXmppMemberByRealJid st R (inr d) = Some (Some (r, x)) ↔
  room st R !! r = Some (Xmpp x) ∧ toString (realJid x) = Jid.stripped d ∧
  ∀ j x', j < r → room st R !! j = Some (Xmpp x') →
          toString (realJid x') ≠ Jid.stripped d.
Proof.
  pose proof (members_find_iff' as_xmpp
                (λ x, toString (realJid x) = Jid.stripped d) (room st R) r x) as Hiff.
  rewrite getXmppMemberByRealJid_jid. unfold getXmppMembers, getMembers, ref.
  etrans; [|etrans; [exact Hiff |]].
  { split; [by intros [= ->] | by intros ->]. }
  split.
  - intros (u & Hl & Hg & HP & Hleast).
    destruct u as [m0|x0]; simplify_eq/=. split_and!; try done.
    intros j x' Hj Hl'. by apply (Hleast j (Xmpp x') x').
  - intros (Hl & HP & Hleast). exists (Xmpp x). split_and!; try done.
    intros j [m0|x0] b' Hj Hl' [= <-]. by eapply Hleast.
Qed.

Lemma getXmppMemberByRealJid_None_iff st R d :
  getXmppMemberByRealJid st R (inr d) = Some None ↔
  ∀ i x, room st R !! i = Some (Xmpp x) → toString (realJid x) ≠ Jid.stripped d.
Proof.
  pose proof (members_find_None_iff as_xmpp
                (λ x, toString (realJid x) = Jid.stripped d) (room st R)) as Hiff.
  rewrite getXmppMemberByRealJid_jid. unfold getXmppMembers, getMembers, ref.
  etrans; [|etrans; [exact Hiff |]].
  { split; [by intros [= ->] | by intros ->]. }
  split.
  - intros Hall i x Hl. by apply (Hall i (Xmpp x) x).
  - intros Hall i [m0|x0] b Hl [= <-]. by eapply Hall.
Qed.

Lemma getMatrixMemberByMatrixId_None_iff st R U :
  getMatrixMemberByMatrixId st R U = None ↔
  ∀ i m, room st R !! i = Some (Matrix m) → m_matrixId m ≠ U.
Proof.
  pose proof (members_find_None_iff as_matrix (λ m, m_matrixId m = U) (room st R))
    as Hiff.
  unfold getMatrixMemberByMatrixId, getMatrixMembers, getMembers, ref.
  etrans; [exact Hiff |]. split.
  - intros Hall i m Hl. by apply (Hall i (Matrix m) m).
  - intros Hall i [m0|x0] b Hl [= <-]. by eapply Hall.
Qed.

Lemma getXmppMemberByMatrixId_None_iff st R U :
  getXmppMemberByMatrixId st R U = None ↔
  ∀ i x, room st R !! i = Some (Xmpp x) → x_matrixId x ≠ U.
Proof.
  pose proof (members_find_None_iff as_xmpp (λ x, x_matrixId x = U) (room st R))
    as Hiff.
  unfold getXmppMemberByMatrixId, getXmppMembers, getMembers, ref.
  etrans; [exact Hiff |]. split.
  - intros Hall i x Hl. by apply (Hall i (Xmpp x) x).
  - intros Hall i [m0|x0] b Hl [= <-]. by eapply Hall.
Qed.

End typed_lookups.

(** X1: a room the registry has never seen behaves as an empty room: it has
    no members and no device addresses, every lookup misses, and the two
    removals answer [false] and leave the registry as it is. *)
Theorem unknown_room_is_empty (st : registry) (R : string) :
  st !! R = None →
  hasMembershipForRoom st R = false ∧
  getMembers st R = [] ∧ getMatrixMembers st R = [] ∧ getXmppMembers st R = [] ∧
  (∀ flat, getXmppMembersDevices flat st R = []) ∧
  (∀ a, getMemberByAnonJid st R a = None) ∧
  (∀ U, getMemberByMatrixId st R U = None ∧ getMatrixMemberByMatrixId st R U = None ∧
        getXmppMemberByMatrixId st R U = None ∧
        removeMatrixMember st R U = (false, st)) ∧
  (∀ rj j, to_jid rj = Some j →
           getXmppMemberByRealJid st R rj = Some None ∧
           removeXmppMember st R rj = Some (false, st)).
Proof.
  intros Hnone.
  assert (room st R = []) as Hroom by (unfold room; by rewrite Hnone).
  assert (getMembers st R = []) as HM by (unfold getMembers; by rewrite Hroom).
  assert (getMatrixMembers st R = []) as HMM by (unfold getMatrixMembers; by rewrite HM).
  assert (getXmppMembers st R = []) as HXM by (unfold getXmppMembers; by rewrite HM).
  split_and!; try done.
  - unfold hasMembershipForRoom. rewrite Hnone. done.
  - intros [|]; unfold getXmppMembersDevices; by rewrite HXM.
  - intros a. unfold getMemberByAnonJid. by rewrite HM.
  - intros U.
    assert (getMatrixMemberByMatrixId st R U = None) as HU
      by (unfold getMatrixMemberByMatrixId; by rewrite HMM).
    split_and!; try done.
    + unfold getMemberByMatrixId. by rewrite HM.
    + unfold getXmppMemberByMatrixId. by rewrite HXM.
    + unfold removeMatrixMember. by rewrite HU.
  - intros rj j Hj.
    assert (∀ rj', to_jid rj' = Some j → getXmppMemberByRealJid st R rj' = Some None) as HX.
    { intros rj' Hj'. unfold getXmppMemberByRealJid. rewrite Hj'. simpl.
      by rewrite HXM. }
    split; [by apply HX |].
    unfold removeXmppMember. rewrite Hj. cbn -[getXmppMemberByRealJid].
    by rewrite (HX (inr j) eq_refl).
Qed.

Lemma unknown_room_is_empty_witness :
  getMembers Sample.alice_joined "other@conf.example" = [] ∧
  removeMatrixMember Sample.alice_joined "other@conf.example" Sample.alice =
    (false, Sample.alice_joined) ∧
  removeXmppMember Sample.alice_joined "other@conf.example"
                   (inl "bob@xmpp.example/phone") = Some (false, Sample.alice_joined).
Proof.
  destruct (unknown_room_is_empty Sample.alice_joined "other@conf.example" eq_refl)
    as (_ & HM & _ & _ & _ & _ & HU & HX).
  split_and!.
  - exact HM.
  - apply HU.
  - apply (HX (inl "bob@xmpp.example/phone") Sample.bob_phone). reflexivity.
Defined.

Section known.
Implicit Types (st : registry) (c R : string).

Lemma hasMembershipForRoom_true st R :
  hasMembershipForRoom st R = true ↔ is_Some (st !! R).
Proof. unfold hasMembershipForRoom. apply bool_decide_eq_true. Qed.

Lemma is_Some_insert_keep st c R (l : list IGatewayMember) :
  is_Some (st !! R) → is_Some (<[c := l]> st !! R).
Proof. intros HS. rewrite lookup_insert_is_Some. destruct (decide (c = R)); auto. Qed.

Lemma is_Some_alter_keep st c R (f : list IGatewayMember → list IGatewayMember) :
  is_Some (st !! R) → is_Some (alter f c st !! R).
Proof.
  intros [l Hl]. destruct (decide (c = R)) as [->|Hne].
  - rewrite lookup_alter_eq, Hl. by eexists.
  - rewrite lookup_alter_ne by done. by eexists.
Qed.

Lemma step_keeps_known st o R :
  is_Some (st !! R) → is_Some (step st o !! R).
Proof.
  intros HS. destruct o as [c mx anon|c rj anon mx|c mx|c rj]; simpl.
  - unfold addMatrixMember. destruct (getMatrixMemberByMatrixId st c mx); simpl;
      [done | by apply is_Some_insert_keep].
  - unfold addXmppMember.
    destruct (jid (Jid.stripped rj)) as [sd|]; [|done]. cbn -[getXmppMemberByRealJid].
    destruct (getXmppMemberByRealJid st c _) as [[[r x]|]|]; simpl; [| |done].
    + by apply is_Some_alter_keep.
    + by apply is_Some_insert_keep.
  - unfold removeMatrixMember.
    destruct (getMatrixMemberByMatrixId st c mx) as [[r m]|]; [|done].
    destruct (st !! c); [|done]. simpl. by apply is_Some_alter_keep.
  - unfold removeXmppMember. destruct (to_jid rj) as [j|]; [|done].
    cbn -[getXmppMemberByRealJid set_delete mutate].
    destruct (getXmppMemberByRealJid st c (inr j)) as [[[r x]|]|]; [|done..].
    cbn -[set_delete mutate].
    assert (is_Some (mutate (devices_delete (toString j)) c r st !! R)) as Hmut
      by by apply is_Some_alter_keep.
    destruct (Js.truthy (resource j)).
    + case_bool_decide; [done |].
      destruct (mutate _ c r st !! c); [|done]. simpl. by apply is_Some_alter_keep.
    + destruct (st !! c); [|done]. simpl. by apply is_Some_alter_keep.
Qed.

End known.

(** X2: once a room is known to the registry it stays known, whatever calls
    follow: no operation drops the entry of a room, also not the removal of
    its last member. *)
Theorem room_stays_known (ops : list op) (st : registry) (R : string) :
  hasMembershipForRoom st R = true →
  hasMembershipForRoom (foldl step st ops) R = true.
Proof.
  rewrite !hasMembershipForRoom_true. revert st.
  induction ops as [|o ops IH]; intros st HS; simpl; [done |].
  by apply IH, step_keeps_known.
Qed.

Lemma room_stays_known_witness :
  hasMembershipForRoom
    (foldl step Sample.alice_joined [RemoveMatrixMember Sample.chat Sample.alice])
    Sample.chat = true ∧
  getMembers
    (foldl step Sample.alice_joined [RemoveMatrixMember Sample.chat Sample.alice])
    Sample.chat = [].
Proof.
  split.
  - exact (room_stays_known [RemoveMatrixMember Sample.chat Sample.alice]
             Sample.alice_joined Sample.chat eq_refl).
  - reflexivity.
Defined.

(** X3: the Matrix and the XMPP members of a room are a partition of its
    members: each member is listed, under its reference, by exactly one of
    [getMatrixMembers] and [getXmppMembers]. *)
Theorem members_partition (st : registry) (R : string) :
  length (getMembers st R) =
    length (getMatrixMembers st R) + length (getXmppMembers st R) ∧
  ∀ r u, (r, u) ∈ getMembers st R ↔
         match u with
         | Matrix m => (r, m) ∈ getMatrixMembers st R
         | Xmpp x => (r, x) ∈ getXmppMembers st R
         end.
Proof.
  split.
  - unfold getMatrixMembers, getXmppMembers, getMembers.
    rewrite (members_length as_matrix id), (members_length as_xmpp id), length_imap.
    induction (room st R) as [|[m|x] l IH]; csimpl; [done | |]; rewrite IH; lia.
  - intros r u. rewrite getMembers_elem. unfold getMatrixMembers, getXmppMembers, getMembers.
    destruct u as [m|x]; rewrite members_elem; split.
    + intros Hl. by exists (Matrix m).
    + by intros ([m'|x'] & Hl & [= ->]).
    + intros Hl. by exists (Xmpp x).
    + by intros ([m'|x'] & Hl & [= ->]).
Qed.

(** X4: the lookup by Matrix id over all members agrees with the lookups
    over one kind: it misses exactly when both miss, and what it finds is
    what the lookup of that kind finds. *)
Theorem getMemberByMatrixId_by_kind (st : registry) (R U : string) :
  match getMemberByMatrixId st R U with
  | Some (r, Matrix m) => getMatrixMemberByMatrixId st R U = Some (r, m)
  | Some (r, Xmpp x) => getXmppMemberByMatrixId st R U = Some (r, x)
  | None => getMatrixMemberByMatrixId st R U = None ∧
            getXmppMemberByMatrixId st R U = None
  end.
Proof.
  destruct (getMemberByMatrixId st R U) as [[r u]|] eqn:Hfind.
  - unfold getMemberByMatrixId in Hfind.
    pose proof (getMembers_find_iff st R (λ u, matrixId u = U) r u) as Hiff.
    apply Hiff in Hfind as (Hl & HP & Hleast). clear Hiff.
    destruct u as [m|x].
    + apply getMatrixMemberByMatrixId_iff. split_and!; try done.
      intros j m' Hj Hl'. by apply (Hleast j (Matrix m')).
    + apply getXmppMemberByMatrixId_iff. split_and!; try done.
      intros j x' Hj Hl'. by apply (Hleast j (Xmpp x')).
  - unfold getMemberByMatrixId in Hfind.
    rewrite array_find_None_iff in Hfind. split.
    + apply getMatrixMemberByMatrixId_None_iff. intros i m Hl.
      apply (Hfind (i, Matrix m)). by apply getMembers_elem.
    + apply getXmppMemberByMatrixId_None_iff. intros i x Hl.
      apply (Hfind (i, Xmpp x)). by apply getMembers_elem.
Qed.

Section matrix_round_trip.
Implicit Types (st : registry) (c R U : string) (l : list IGatewayMember) (r : nat).

Lemma addMatrixMember_true st R U anon st1 :
  addMatrixMember st R U anon = (true, st1) →
  getMatrixMemberByMatrixId st R U = None ∧
  st1 = <[R := room st R ++ [Matrix (mkMatrix anon U)]]> st.
Proof.
  unfold addMatrixMember.
  destruct (getMatrixMemberByMatrixId st R U) as [p|]; [done|].
  by intros [= <-].
Qed.

Lemma delete_length_snoc {A} (l : list A) (u : A) : delete (length l) (l ++ [u]) = l.
Proof. induction l as [|a l IH]; simpl; [done | by rewrite IH]. Qed.

Lemma lookup_same_room st st' R :
  room st' R = room st R →
  (∀ U, getMatrixMemberByMatrixId st' R U = getMatrixMemberByMatrixId st R U) ∧
  (∀ U, getXmppMemberByMatrixId st' R U = getXmppMemberByMatrixId st R U) ∧
  (∀ U, getMemberByMatrixId st' R U = getMemberByMatrixId st R U) ∧
  (∀ a, getMemberByAnonJid st' R a = getMemberByAnonJid st R a) ∧
  (∀ rj, getXmppMemberByRealJid st' R rj = getXmppMemberByRealJid st R rj).
Proof.
  intros Hroom.
  unfold getMatrixMemberByMatrixId, getXmppMemberByMatrixId, getMemberByMatrixId,
    getMemberByAnonJid, getXmppMemberByRealJid, getMatrixMembers, getXmppMembers,
    getMembers.
  by rewrite Hroom.
Qed.

Lemma addMatrixMember_found st R U anon :
  getMatrixMemberByMatrixId st R U = None →
  getMatrixMemberByMatrixId (<[R := room st R ++ [Matrix (mkMatrix anon U)]]> st) R U =
  Some (length (room st R), mkMatrix anon U).
Proof.
  intros Hnone. apply getMatrixMemberByMatrixId_iff.
  rewrite room_insert, decide_True by done. split_and!.
  - by rewrite lookup_app_r, Nat.sub_diag by lia.
  - done.
  - intros j m' Hj Hl. rewrite lookup_app_l in Hl by done.
    by eapply getMatrixMemberByMatrixId_None_iff.
Qed.

End matrix_round_trip.

(** X5: a Matrix user who joins and then leaves: [removeMatrixMember]
    answers [true], the room holds the members it held before the join, in
    the same order, the other rooms are as they were, the user is no longer
    found, and the room stays known to the registry even when it is empty
    again. *)
Theorem addMatrixMember_then_remove (st st1 : registry) (R U : string) (anon : JID) :
  addMatrixMember st R U anon = (true, st1) →
  ∃ st2, removeMatrixMember st1 R U = (true, st2) ∧
    room st2 R = room st R ∧ (∀ c, c ≠ R → room st2 c = room st c) ∧
    getMatrixMemberByMatrixId st2 R U = None ∧
    hasMembershipForRoom st2 R = true.
Proof.
  intros [Hnone ->]%addMatrixMember_true.
  pose proof (addMatrixMember_found st R U anon Hnone) as Hfound.
  unfold removeMatrixMember. rewrite Hfound, lookup_insert_eq.
  destruct (set_delete_present
              (<[R := room st R ++ [Matrix (mkMatrix anon U)]]> st) R
              (length (room st R)) (Matrix (mkMatrix anon U)))
    as (st2 & Hdel & HR & Hother).
  { rewrite room_insert, decide_True by done.
    by rewrite lookup_app_r, Nat.sub_diag by lia. }
  exists st2. rewrite room_insert, decide_True in HR by done.
  rewrite delete_length_snoc in HR.
  split_and!; try done.
  - intros c Hc. rewrite Hother by done. by rewrite room_insert, decide_False.
  - destruct (lookup_same_room st st2 R HR) as (-> & _). done.
  - apply hasMembershipForRoom_true.
    assert (st2 = (set_delete R (length (room st R))
                     (<[R := room st R ++ [Matrix (mkMatrix anon U)]]> st)).2) as ->
      by by rewrite Hdel.
    unfold set_delete. simpl. apply is_Some_alter_keep.
    rewrite lookup_insert_eq. by eexists.
Qed.

Lemma addMatrixMember_then_remove_witness :
  ∃ st2, removeMatrixMember Sample.alice_joined Sample.chat Sample.alice = (true, st2) ∧
    room st2 Sample.chat = [] ∧ hasMembershipForRoom st2 Sample.chat = true.
Proof.
  assert (addMatrixMember ∅ Sample.chat Sample.alice Sample.alice_anon =
          (true, Sample.alice_joined)) as Hadd by reflexivity.
  destruct (addMatrixMember_then_remove ∅ Sample.alice_joined Sample.chat
              Sample.alice Sample.alice_anon Hadd)
    as (st2 & H1 & H2 & _ & _ & H5).
  exists st2. split_and!; [exact H1 | exact H2 | exact H5].
Defined.

Section keyed_delete.
Context (k : IGatewayMember → option string).
Implicit Types (l : list IGatewayMember) (r : nat).

Lemma filter_all {A} (P : A → Prop) `{∀ x, Decision (P x)} (l : list A) :
  Forall P l → filter P l = l.
Proof.
  induction 1 as [|x l Hx _ IH]; [done |].
  by rewrite filter_cons, decide_True, IH.
Qed.

Lemma omap_key_elem l r u K : l !! r = Some u → k u = Some K → K ∈ omap k l.
Proof.
  intros Hl HK. apply list_elem_of_omap. exists u. split; [|done].
  by eapply list_elem_of_lookup_2.
Qed.

Lemma delete_unique_key l r u K :
  NoDup (omap k l) → l !! r = Some u → k u = Some K →
  delete r l = filter (λ v, k v ≠ Some K) l.
Proof.
  revert r. induction l as [|a l IH]; intros r Hnd Hl HK; [done |].
  destruct r as [|r]; simpl in *.
  - injection Hl as ->. rewrite HK in Hnd. apply NoDup_cons in Hnd as [Hfresh _].
    rewrite filter_cons, decide_False by (intros Hne; by apply Hne).
    symmetry. apply filter_all, Forall_forall. intros v Hv Heq.
    apply Hfresh, list_elem_of_omap. by exists v.
  - assert (k a ≠ Some K) as Hne.
    { intros Ha. rewrite Ha in Hnd. apply NoDup_cons in Hnd as [Hfresh _].
      apply Hfresh. by eapply omap_key_elem. }
    rewrite filter_cons, decide_True by done. f_equal. apply IH; try done.
    destruct (k a); [by apply NoDup_cons in Hnd as [_ ?] | done].
Qed.

End keyed_delete.

(** X6: what [removeMatrixMember] does in a registry without double entries
    (as every registry built by the calls is): it answers [true] exactly
    when the user is a Matrix member of the room; afterwards the room holds
    the members it held, in order, without the Matrix member of that id;
    the other rooms are untouched, the user is no longer found, and a
    second call answers [false] and changes nothing. *)
Theorem removeMatrixMember_spec (st : registry) (R U : string) :
  unique_keys st →
  (removeMatrixMember st R U).1 =
    bool_decide (is_Some (getMatrixMemberByMatrixId st R U)) ∧
  room (removeMatrixMember st R U).2 R =
    filter (λ u, matrix_key u ≠ Some U) (room st R) ∧
  (∀ c, c ≠ R → room (removeMatrixMember st R U).2 c = room st c) ∧
  getMatrixMemberByMatrixId (removeMatrixMember st R U).2 R U = None ∧
  removeMatrixMember (removeMatrixMember st R U).2 R U =
    (false, (removeMatrixMember st R U).2).
Proof.
  intros Huniq.
  assert (room (removeMatrixMember st R U).2 R =
          filter (λ u, matrix_key u ≠ Some U) (room st R) ∧
          (removeMatrixMember st R U).1 =
            bool_decide (is_Some (getMatrixMemberByMatrixId st R U)) ∧
          ∀ c, c ≠ R → room (removeMatrixMember st R U).2 c = room st c)
    as (Hroom & Hans & Hother).
  { unfold removeMatrixMember.
    destruct (getMatrixMemberByMatrixId st R U) as [[r m]|] eqn:Hfind.
    - apply getMatrixMemberByMatrixId_iff in Hfind as (Hl & HU & _).
      destruct (room_lookup_is_Some st R r _ Hl) as [l0 Hst]. rewrite Hst.
      destruct (set_delete_present st R r _ Hl) as (st' & Hdel & HR & Hother).
      rewrite Hdel. simpl. split_and!; [|done..].
      rewrite HR. apply (delete_unique_key matrix_key _ _ (Matrix m)); try done.
      + apply Huniq.
      + by rewrite <- HU.
    - simpl. split_and!; [|done..].
      symmetry. apply filter_all, Forall_forall. intros u Hu Heq.
      apply list_elem_of_lookup in Hu as [i Hi].
      destruct u as [m|x]; [|done]. injection Heq as Heq.
      by eapply getMatrixMemberByMatrixId_None_iff. }
  assert (getMatrixMemberByMatrixId (removeMatrixMember st R U).2 R U = None) as Hgone.
  { apply getMatrixMemberByMatrixId_None_iff. intros i m Hi HU.
    rewrite Hroom in Hi. apply list_elem_of_lookup_2, list_elem_of_filter in Hi as [Hne _].
    apply Hne. by rewrite <- HU. }
  split_and!; try done.
  unfold removeMatrixMember at 1. by rewrite Hgone.
Qed.

Lemma removeMatrixMember_spec_witness :
  (removeMatrixMember Sample.alice_joined Sample.chat Sample.alice).1 = true ∧
  room (removeMatrixMember Sample.alice_joined Sample.chat Sample.alice).2 Sample.chat = [].
Proof.
  assert (unique_keys Sample.alice_joined) as Huniq.
  { apply (foldl_step_unique [AddMatrixMember Sample.chat Sample.alice Sample.alice_anon] ∅);
      [|exact unique_keys_empty].
    repeat (apply Forall_cons_2 || apply Forall_nil_2); exact I. }
  destruct (removeMatrixMember_spec Sample.alice_joined Sample.chat Sample.alice Huniq)
    as (H1 & H2 & _).
  split; [exact H1 | exact H2].
Defined.

Section xmpp_calls.
Implicit Types (st : registry) (c R : string) (l : list IGatewayMember) (r : nat).

Lemma getXmppMemberByRealJid_lookup st R rj r x :
  getXmppMemberByRealJid st R rj = Some (Some (r, x)) →
  room st R !! r = Some (Xmpp x).
Proof.
  unfold getXmppMemberByRealJid. destruct (to_jid rj) as [j|]; [|done]. simpl.
  intros [= Hfind]. apply array_find_Some in Hfind as [Hin _].
  by apply getXmppMembers_elem in Hin.
Qed.

Lemma JSSet_of_list_singleton s : JSSet.of_list [s] = [s].
Proof.
  unfold JSSet.of_list. simpl. unfold JSSet.add.
  rewrite decide_False; [done | apply not_elem_of_nil].
Qed.

(** The three ways [removeXmppMember] ends for a member that is found. *)
Lemma removeXmppMember_found st R rj j r x :
  to_jid rj = Some j →
  getXmppMemberByRealJid st R (inr j) = Some (Some (r, x)) →
  let keep := Js.truthy (resource j) &&
              bool_decide (length (JSSet.remove (toString j) (devices x)) ≠ 0) in
  ∃ st', removeXmppMember st R rj = Some (negb keep, st') ∧
    room st' R = (if keep then alter (devices_delete (toString j)) r (room st R)
                  else delete r (room st R)) ∧
    ∀ c, c ≠ R → room st' c = room st c.
Proof.
  intros Hto Hfind keep.
  pose proof (getXmppMemberByRealJid_lookup _ _ _ _ _ Hfind) as Hl.
  unfold removeXmppMember. rewrite Hto.
  cbn -[getXmppMemberByRealJid set_delete mutate]. rewrite Hfind.
  cbn -[set_delete mutate]. subst keep.
  destruct (Js.truthy (resource j)); cbn -[set_delete mutate].
  - case_bool_decide as Hlen; cbn -[set_delete mutate].
    + eexists. split; [done|]. split.
      * by rewrite room_mutate, decide_True.
      * intros c Hc. by rewrite room_mutate, decide_False.
    + set (st1 := mutate (devices_delete (toString j)) R r st).
      assert (room st1 R !! r = Some (devices_delete (toString j) (Xmpp x))) as Hl1.
      { unfold st1. rewrite room_mutate, decide_True by done.
        by rewrite list_lookup_alter_eq, Hl. }
      destruct (room_lookup_is_Some st1 R r _ Hl1) as [l1 Hst1]. rewrite Hst1.
      destruct (set_delete_present st1 R r _ Hl1) as (st' & Hdel & HR & Hother).
      exists st'. split; [by rewrite Hdel|]. split.
      * rewrite HR. unfold st1. rewrite room_mutate, decide_True by done.
        apply list_delete_alter.
      * intros c Hc. rewrite Hother by done. unfold st1.
        by rewrite room_mutate, decide_False.
  - destruct (room_lookup_is_Some st R r _ Hl) as [l0 Hst]. rewrite Hst.
    destruct (set_delete_present st R r _ Hl) as (st' & Hdel & HR & Hother).
    exists st'. by rewrite Hdel.
Qed.

Lemma removeXmppMember_absent st R rj j :
  to_jid rj = Some j →
  getXmppMemberByRealJid st R (inr j) = Some None →
  removeXmppMember st R rj = Some (false, st).
Proof.
  intros Hto Hfind. unfold removeXmppMember. rewrite Hto.
  cbn -[getXmppMemberByRealJid]. by rewrite Hfind.
Qed.

(** The two ways [addXmppMember] ends when it does not throw. *)
Lemma addXmppMember_cases st R rj anon mx b st' :
  addXmppMember st R rj anon mx = Some (b, st') →
  (∀ c, c ≠ R → room st' c = room st c) ∧
  ((b = false ∧ ∃ r x, room st R !! r = Some (Xmpp x) ∧
      room st' R = alter (devices_add (toString rj)) r (room st R)) ∨
   (b = true ∧ ∃ sd, jid (Jid.stripped rj) = Some sd ∧
      room st' R = room st R ++ [Xmpp (mkXmpp anon mx sd [toString rj])])).
Proof.
  unfold addXmppMember. destruct (jid (Jid.stripped rj)) as [sd|]; [|done].
  cbn -[getXmppMemberByRealJid mutate JSSet.of_list].
  destruct (getXmppMemberByRealJid st R (inl (toString sd)))
    as [[[r x]|]|] eqn:Hfind; cbn -[mutate JSSet.of_list]; [| |done].
  - intros [= <- <-]. split.
    + intros c Hc. by rewrite room_mutate, decide_False.
    + left. split; [done|]. exists r, x. split.
      * by eapply getXmppMemberByRealJid_lookup.
      * by rewrite room_mutate, decide_True.
  - intros [= <- <-]. split.
    + intros c Hc. by rewrite room_insert, decide_False.
    + right. split; [done|]. exists sd. split; [done|].
      by rewrite room_insert, decide_True, JSSet_of_list_singleton.
Qed.

Lemma addMatrixMember_cases st R U anon :
  (∀ c, c ≠ R → room (addMatrixMember st R U anon).2 c = room st c) ∧
  (room (addMatrixMember st R U anon).2 R = room st R ∨
   room (addMatrixMember st R U anon).2 R = room st R ++ [Matrix (mkMatrix anon U)]).
Proof.
  unfold addMatrixMember.
  destruct (getMatrixMemberByMatrixId st R U) as [p|]; simpl.
  - auto.
  - split.
    + intros c Hc. by rewrite room_insert, decide_False.
    + right. by rewrite room_insert, decide_True.
Qed.

Lemma removeMatrixMember_cases st R U :
  (∀ c, c ≠ R → room (removeMatrixMember st R U).2 c = room st c) ∧
  (room (removeMatrixMember st R U).2 R = room st R ∨
   ∃ r m, room st R !! r = Some (Matrix m) ∧
          room (removeMatrixMember st R U).2 R = delete r (room st R)).
Proof.
  unfold removeMatrixMember.
  destruct (getMatrixMemberByMatrixId st R U) as [[r m]|] eqn:Hfind; [|by auto].
  apply getMatrixMemberByMatrixId_iff in Hfind as (Hl & _).
  destruct (room_lookup_is_Some st R r _ Hl) as [l0 Hst]. rewrite Hst.
  destruct (set_delete_present st R r _ Hl) as (st' & Hdel & HR & Hother).
  rewrite Hdel. simpl. split; [done|]. right. by exists r, m.
Qed.

End xmpp_calls.

Section device_invariant.
Implicit Types (st : registry) (c R : string) (l : list IGatewayMember) (r : nat).

Lemma JSSet_add_ok d (D : list string) :
  NoDup D → JSSet.add d D ≠ [] ∧ NoDup (JSSet.add d D).
Proof.
  intros Hnd. unfold JSSet.add. case_decide as Hin.
  - split; [|done]. intros ->. by apply not_elem_of_nil in Hin.
  - split; [by destruct D|]. apply NoDup_app. split_and!; [done | | apply NoDup_singleton].
    intros y Hy ->%list_elem_of_singleton. done.
Qed.

Lemma step_devices_ok st o :
  (∀ c, Forall devices_ok (room st c)) → ∀ c, Forall devices_ok (room (step st o) c).
Proof.
  intros Hok c'. destruct o as [c mx anon|c rj anon mx|c mx|c rj]; simpl.
  - destruct (addMatrixMember_cases st c mx anon) as [Hother Hc].
    destruct (decide (c' = c)) as [->|Hne]; [|by rewrite Hother].
    destruct Hc as [-> | ->]; [done|].
    apply Forall_app. split; [done|]. by apply Forall_singleton.
  - destruct (addXmppMember st c rj anon mx) as [[b st']|] eqn:Hadd; [|done].
    apply addXmppMember_cases in Hadd as [Hother Hc].
    destruct (decide (c' = c)) as [->|Hne]; [|by rewrite Hother].
    destruct Hc as [(_ & r & x & Hl & ->) | (_ & sd & _ & ->)].
    + apply Forall_alter; [done|]. intros [m0|x0] _ Hx0; [done|].
      simpl. apply JSSet_add_ok, Hx0.
    + apply Forall_app. split; [done|]. apply Forall_singleton. simpl.
      split; [done | apply NoDup_singleton].
  - destruct (removeMatrixMember_cases st c mx) as [Hother Hc].
    destruct (decide (c' = c)) as [->|Hne]; [|by rewrite Hother].
    destruct Hc as [-> | (r & m & _ & ->)]; [done|]. by apply Forall_delete.
  - destruct (to_jid rj) as [j|] eqn:Hto;
      [|by unfold removeXmppMember; rewrite Hto].
    destruct (getXmppMemberByRealJid st c (inr j)) as [[[r x]|]|] eqn:Hfind.
    + destruct (removeXmppMember_found st c rj j r x Hto Hfind)
        as (st' & -> & HR & Hother).
      destruct (decide (c' = c)) as [->|Hne]; [|by rewrite Hother].
      rewrite HR.
      destruct (Js.truthy (resource j)); simpl; [|by apply Forall_delete].
      case_bool_decide as Hlen; [|by apply Forall_delete].
      apply Forall_alter; [done|]. intros u Hu Hx.
      apply getXmppMemberByRealJid_lookup in Hfind.
      rewrite Hfind in Hu. injection Hu as <-. simpl. split.
      * intros Hnil. apply Hlen. by rewrite Hnil.
      * apply NoDup_filter, Hx.
    + by rewrite (removeXmppMember_absent st c rj j Hto Hfind).
    + unfold getXmppMemberByRealJid in Hfind. done.
Qed.

Lemma run_devices_ok ops c : Forall devices_ok (room (run ops) c).
Proof.
  unfold run.
  assert (∀ st, (∀ c, Forall devices_ok (room st c)) →
                ∀ c, Forall devices_ok (room (foldl step st ops) c)) as Hgen.
  { induction ops as [|o ops IH]; intros st Hst; simpl; [done|].
    by apply IH, step_devices_ok. }
  apply Hgen. intros c0. by rewrite room_empty.
Qed.

End device_invariant.

(** X7: whatever calls were made on a fresh registry, and with whatever
    arguments, an XMPP member of a room has at least one device, and no
    device address is listed twice for it: a member whose last device
    leaves is removed with it. *)
Theorem devices_never_empty (ops : list op) (R : string) (r : ref)
    (x : IGatewayMemberXmpp) :
  (r, x) ∈ getXmppMembers (run ops) R → devices x ≠ [] ∧ NoDup (devices x).
Proof.
  intros Hin%getXmppMembers_elem.
  pose proof (run_devices_ok ops R) as Hok.
  rewrite Forall_forall in Hok.
  apply list_elem_of_lookup_2 in Hin. exact (Hok (Xmpp x) Hin).
Qed.

Lemma devices_never_empty_witness :
  devices (Sample.bob_member ["bob@xmpp.example/laptop"]) ≠ [] ∧
  NoDup (devices (Sample.bob_member ["bob@xmpp.example/laptop"])).
Proof.
  apply (devices_never_empty Sample.session Sample.chat 1).
  apply list_elem_of_lookup. exists 0. reflexivity.
Defined.

(** X8: in a registry built by the calls, [removeXmppMember] with a full
    address (one with a resource) answers [true] only for the last device
    of a member: the member was found, that address was its only device,
    and the member is taken out of the room. *)
Theorem removeXmppMember_last_device (ops : list op) (R : string) (j : JID)
    (st' : registry) :
  Js.truthy (resource j) = true →
  removeXmppMember (run ops) R (inr j) = Some (true, st') →
  ∃ r x, getXmppMemberByRealJid (run ops) R (inr j) = Some (Some (r, x)) ∧
         devices x = [toString j] ∧ room st' R = delete r (room (run ops) R).
Proof.
  intros Hres Hrem.
  destruct (getXmppMemberByRealJid (run ops) R (inr j)) as [[[r x]|]|] eqn:Hfind.
  - destruct (removeXmppMember_found (run ops) R (inr j) j r x eq_refl Hfind)
      as (st2 & Hrem2 & HR & _).
    rewrite Hrem in Hrem2. rewrite Hres in Hrem2, HR. simpl in Hrem2, HR.
    case_bool_decide as Hlen; [done|]. injection Hrem2 as <-.
    exists r, x. split_and!; [done | | done].
    apply getXmppMemberByRealJid_lookup in Hfind.
    pose proof (run_devices_ok ops R) as Hok. rewrite Forall_forall in Hok.
    destruct (Hok (Xmpp x)) as [Hne Hnd]; [by eapply list_elem_of_lookup_2|].
    assert (∀ y, y ∈ devices x → y = toString j) as Hall.
    { intros y Hy. destruct (decide (y = toString j)) as [->|Hny]; [done|].
      exfalso.
      assert (y ∈ JSSet.remove (toString j) (devices x)) as Hin
        by by apply list_elem_of_filter.
      apply length_zero_iff_nil in Hlen. rewrite Hlen in Hin.
      by apply not_elem_of_nil in Hin. }
    destruct (devices x) as [|a [|b D]] eqn:HD; [done | |].
    + f_equal. apply Hall. by left.
    + exfalso. apply NoDup_cons in Hnd as [Hfresh _]. apply Hfresh.
      rewrite (Hall a), (Hall b); [by left | by right; left | by left].
  - by rewrite (removeXmppMember_absent (run ops) R (inr j) j eq_refl Hfind) in Hrem.
  - unfold getXmppMemberByRealJid in Hfind. done.
Qed.

Lemma removeXmppMember_last_device_witness :
  ∃ r x, getXmppMemberByRealJid Sample.bob_joined Sample.chat (inr Sample.bob_phone) =
           Some (Some (r, x)) ∧
         devices x = ["bob@xmpp.example/phone"].
Proof.
  assert (∃ st', removeXmppMember Sample.bob_joined Sample.chat (inr Sample.bob_phone) =
                 Some (true, st')) as [st' Hrem] by (eexists; reflexivity).
  destruct (removeXmppMember_last_device
              [AddXmppMember Sample.chat Sample.bob_phone Sample.bob_anon "@_xmpp_bob:hs"]
              Sample.chat Sample.bob_phone st' eq_refl Hrem) as (r & x & H1 & H2 & _).
  exists r, x. split; [exact H1 | exact H2].
Defined.

Section addresses.
Implicit Types (d : JID) (s : string).

(** Parsing a printed address gives the address back. *)
Lemma jid_toString d :
  Jid.wf d → Js.truthy (local d) = true → jid (toString d) = Some d.
Proof.
  intros (Hl1 & Hl2 & Hd & Hne) Hloc. destruct d as [l dm res]. simpl in *.
  unfold toString, jid. simpl. rewrite Hloc.
  assert (Js.occurs "/" (l +:+ String "@" dm) = false) as Hslash.
  { rewrite occurs_app. simpl. by rewrite Hl2, Hd. }
  apply truthy_ne in Hne.
  destruct res as [|a res]; simpl.
  - rewrite break_None by done. rewrite break_app by done.
    unfold new_JID. by rewrite Hne.
  - change (String "/" (String a res)) with (String "/"%char (String a res)).
    rewrite break_app by done. rewrite break_app by done.
    unfold new_JID. by rewrite Hne.
Qed.

Lemma toString_inj d1 d2 :
  Jid.wf d1 → Js.truthy (local d1) = true →
  Jid.wf d2 → Js.truthy (local d2) = true →
  toString d1 = toString d2 → d1 = d2.
Proof.
  intros Hw1 Hl1 Hw2 Hl2 Heq.
  pose proof (jid_toString d1 Hw1 Hl1) as H1.
  rewrite Heq, jid_toString in H1 by done. by apply (inj Some) in H1.
Qed.

Lemma stripped_inj d1 d2 :
  Jid.wf d1 → Jid.wf d2 → Jid.stripped d1 = Jid.stripped d2 → bare d1 = bare d2.
Proof.
  intros Hw1 Hw2 Heq. pose proof (jid_stripped d1 Hw1) as H1.
  rewrite Heq, jid_stripped in H1 by done. by apply (inj Some) in H1.
Qed.

Lemma user_address_bare_wf d : user_address d → Jid.wf (bare d).
Proof. by intros [Hwf _]%user_address_wf. Qed.

End addresses.

(** X9: an address with a local part that came out of the parser prints to
    a string that parses back to it, so the calls that take [string | JID]
    do the same for the address and for its printed form; the lookup also
    ignores the resource. *)
Theorem printed_address_same_member (st : registry) (R : string) (d : JID) :
  user_address d →
  jid (toString d) = Some d ∧
  getXmppMemberByRealJid st R (inl (toString d)) =
    getXmppMemberByRealJid st R (inr d) ∧
  removeXmppMember st R (inl (toString d)) = removeXmppMember st R (inr d) ∧
  getXmppMemberByRealJid st R (inr (bare d)) = getXmppMemberByRealJid st R (inr d).
Proof.
  intros [Hwf Hl]%user_address_wf.
  pose proof (jid_toString d Hwf Hl) as Hparse. split_and!.
  - done.
  - unfold getXmppMemberByRealJid, to_jid. by rewrite Hparse.
  - unfold removeXmppMember, to_jid. by rewrite Hparse.
  - done.
Qed.

Lemma printed_address_same_member_witness :
  jid "bob@xmpp.example/phone" = Some Sample.bob_phone ∧
  removeXmppMember Sample.two_devices Sample.chat (inl "bob@xmpp.example/phone") =
    removeXmppMember Sample.two_devices Sample.chat (inr Sample.bob_phone).
Proof.
  destruct (printed_address_same_member Sample.two_devices Sample.chat Sample.bob_phone
              user_address_bob_phone) as (H1 & _ & H3 & _).
  split; [exact H1 | exact H3].
Defined.

Section owned_invariant.
Implicit Types (st : registry) (c R : string) (l : list IGatewayMember) (r : nat).

Lemma JSSet_add_elem d (D : list string) s : s ∈ JSSet.add d D ↔ s ∈ D ∨ s = d.
Proof.
  unfold JSSet.add. case_decide as Hin.
  - split; [by left | by intros [?| ->]].
  - by rewrite elem_of_app, list_elem_of_singleton.
Qed.

Lemma step_devices_owned st o :
  user_op o →
  (∀ c, Forall devices_owned (room st c)) →
  ∀ c, Forall devices_owned (room (step st o) c).
Proof.
  intros Ho Hok c'. destruct o as [c mx anon|c rj anon mx|c mx|c rj]; simpl.
  - destruct (addMatrixMember_cases st c mx anon) as [Hother Hc].
    destruct (decide (c' = c)) as [->|Hne]; [|by rewrite Hother].
    destruct Hc as [-> | ->]; [done|].
    apply Forall_app. split; [done|]. by apply Forall_singleton.
  - simpl in Ho. pose proof Ho as [Hwf Hloc]%user_address_wf.
    rewrite addXmppMember_unfold by done.
    destruct (array_find _ (getXmppMembers st c)) as [[r x]|] eqn:Hfind; simpl.
    + rewrite room_mutate. case_decide as Hc; [subst c'|done].
      apply array_find_Some in Hfind as [Hin%getXmppMembers_elem Hkey].
      simpl in Hkey.
      apply Forall_alter; [done|]. intros u Hu Hx. unfold ref in *.
      rewrite Hin in Hu. injection Hu as <-.
      destruct Hx as [(d0 & Hd0 & Hreal) Hdev]. simpl.
      assert (bare rj = realJid x) as Hbare.
      { rewrite Hreal. destruct (user_address_wf d0 Hd0) as [Hwf0 Hloc0].
        apply stripped_inj; [done..|].
        by rewrite <- Hkey, Hreal, toString_bare. }
      split; [by exists d0|].
      intros s [Hs| ->]%JSSet_add_elem; [by apply Hdev | by exists rj].
    + rewrite room_insert. case_decide as Hc; [subst c'|done].
      apply Forall_app. split; [done|]. apply Forall_singleton. simpl.
      split; [by exists rj|].
      intros s ->%list_elem_of_singleton. by exists rj.
  - destruct (removeMatrixMember_cases st c mx) as [Hother Hc].
    destruct (decide (c' = c)) as [->|Hne]; [|by rewrite Hother].
    destruct Hc as [-> | (r & m & _ & ->)]; [done|]. by apply Forall_delete.
  - destruct (to_jid rj) as [j|] eqn:Hto;
      [|by unfold removeXmppMember; rewrite Hto].
    destruct (getXmppMemberByRealJid st c (inr j)) as [[[r x]|]|] eqn:Hfind.
    + destruct (removeXmppMember_found st c rj j r x Hto Hfind)
        as (st' & -> & HR & Hother).
      destruct (decide (c' = c)) as [->|Hne]; [|by rewrite Hother].
      rewrite HR.
      destruct (Js.truthy (resource j) && _); [|by apply Forall_delete].
      apply Forall_alter; [done|]. intros [m0|x0] _ Hx; [done|].
      destruct Hx as [Hreal Hdev]. simpl. split; [done|].
      intros s [_ Hs]%list_elem_of_filter. by apply Hdev.
    + by rewrite (removeXmppMember_absent st c rj j Hto Hfind).
    + unfold getXmppMemberByRealJid in Hfind. done.
Qed.

Lemma run_devices_owned ops c :
  Forall user_op ops → Forall devices_owned (room (run ops) c).
Proof.
  unfold run. intros Hops.
  assert (∀ st, (∀ c, Forall devices_owned (room st c)) →
                ∀ c, Forall devices_owned (room (foldl step st ops) c)) as Hgen.
  { induction Hops as [|o ops Ho _ IH]; intros st Hst; simpl; [done|].
    by apply IH, step_devices_owned. }
  apply Hgen. intros c0. by rewrite room_empty.
Qed.

End owned_invariant.

(** X10: in a registry built by calls whose XMPP additions carry user
    addresses, the [realJid] of an XMPP member is a bare address (a local
    part, no resource), and each of its devices is the printed form of a
    user address of that real identity. *)
Theorem devices_belong_to_member (ops : list op) (R : string) (r : ref)
    (x : IGatewayMemberXmpp) :
  Forall user_op ops → (r, x) ∈ getXmppMembers (run ops) R →
  resource (realJid x) = EmptyString ∧ Js.truthy (local (realJid x)) = true ∧
  ∀ s, s ∈ devices x →
       ∃ d, user_address d ∧ bare d = realJid x ∧ toString d = s.
Proof.
  intros Hops Hin%getXmppMembers_elem.
  pose proof (run_devices_owned ops R Hops) as Hok. rewrite Forall_forall in Hok.
  apply list_elem_of_lookup_2 in Hin.
  destruct (Hok (Xmpp x) Hin) as [(d0 & [_ Hloc] & ->) Hdev]. done.
Qed.

Lemma devices_belong_to_member_witness :
  ∃ d, user_address d ∧ bare d = mkJID "bob" "xmpp.example" EmptyString ∧
       toString d = "bob@xmpp.example/laptop".
Proof.
  assert (Forall user_op Sample.session) as Hops.
  { repeat (apply Forall_cons_2 || apply Forall_nil_2); try exact I.
    - exact user_address_bob_phone.
    - exact user_address_bob_laptop. }
  assert ((1, Sample.bob_member ["bob@xmpp.example/laptop"]) ∈
          getXmppMembers (run Sample.session) Sample.chat) as Hin.
  { apply list_elem_of_lookup. exists 0. reflexivity. }
  destruct (devices_belong_to_member Sample.session Sample.chat 1
              (Sample.bob_member ["bob@xmpp.example/laptop"]) Hops Hin)
    as (_ & _ & H).
  apply (H "bob@xmpp.example/laptop"). left.
Defined.

Section device_list.
Implicit Types (st : registry) (c R : string).

Lemma JSSet_of_list_NoDup (l : list string) : NoDup l → JSSet.of_list l = l.
Proof.
  unfold JSSet.of_list.
  assert (∀ s, NoDup (s ++ l) → foldl (λ s x, JSSet.add x s) s l = s ++ l) as Hgen.
  { induction l as [|a l IH]; intros s Hnd; simpl; [by rewrite app_nil_r|].
    unfold JSSet.add at 2. rewrite decide_False.
    - rewrite IH; rewrite <- (assoc_L (++)); done.
    - apply NoDup_app in Hnd as (_ & Hdis & _). intros Ha. apply (Hdis a Ha). by left. }
  intros Hnd. by apply (Hgen []).
Qed.

Lemma NoDup_concat_keyed {A} (k : A → string) (f : A → list string) (l : list A) :
  NoDup (k <$> l) →
  (∀ u, u ∈ l → NoDup (f u)) →
  (∀ u v s, u ∈ l → v ∈ l → s ∈ f u → s ∈ f v → k u = k v) →
  NoDup (concat (f <$> l)).
Proof.
  induction l as [|a l IH]; intros Hk Hnd Hown; simpl; [constructor|].
  simpl in Hk. apply NoDup_cons in Hk as [Hfresh Hk].
  apply NoDup_app. split_and!.
  - apply Hnd. by left.
  - intros s Hs (b & Hb & Hsb)%elem_of_concat.
    apply list_elem_of_fmap in Hb as (v & -> & Hv).
    apply Hfresh. apply list_elem_of_fmap. exists v. split; [|done].
    apply (Hown a v s); [by left | by right | done | done].
  - apply IH; [done | |].
    + intros u Hu. apply Hnd. by right.
    + intros u v s Hu Hv. apply Hown; by right.
Qed.

End device_list.

(** X11: in such a registry no device address is listed for two members of
    a room, so the set built by [getXmppMembersDevices] drops nothing: it is
    the devices of the members one after the other, in the order of the
    members, on both branches. *)
Theorem getXmppMembersDevices_concat (ops : list op) (R : string) (flat : bool) :
  Forall user_op ops →
  getXmppMembersDevices flat (run ops) R =
  concat ((λ u, devices u.2) <$> getXmppMembers (run ops) R).
Proof.
  intros Hops.
  assert (NoDup (concat ((λ u, devices u.2) <$> getXmppMembers (run ops) R))) as Hnd.
  { apply (NoDup_concat_keyed (λ u, toString (realJid u.2))).
    - rewrite getXmppMembers_keys.
      apply (foldl_step_unique ops ∅ Hops unique_keys_empty R).
    - intros [r x] Hin%getXmppMembers_elem. simpl.
      pose proof (run_devices_ok ops R) as Hok. rewrite Forall_forall in Hok.
      apply list_elem_of_lookup_2 in Hin. apply (Hok (Xmpp x) Hin).
    - intros [r1 x1] [r2 x2] s Hin1%getXmppMembers_elem Hin2%getXmppMembers_elem.
      simpl. intros Hs1 Hs2.
      pose proof (run_devices_owned ops R Hops) as Hok. rewrite Forall_forall in Hok.
      apply list_elem_of_lookup_2 in Hin1, Hin2.
      destruct (Hok (Xmpp x1) Hin1) as [_ Hdev1].
      destruct (Hok (Xmpp x2) Hin2) as [_ Hdev2].
      destruct (Hdev1 s Hs1) as (d1 & [Hw1 Hl1]%user_address_wf & <- & Hp1).
      destruct (Hdev2 s Hs2) as (d2 & [Hw2 Hl2]%user_address_wf & <- & Hp2).
      rewrite <- Hp2 in Hp1. by rewrite (toString_inj d1 d2). }
  unfold getXmppMembersDevices. destruct flat.
  - by apply JSSet_of_list_NoDup.
  - rewrite foldl_app_concat. simpl. by apply JSSet_of_list_NoDup.
Qed.

Lemma getXmppMembersDevices_concat_witness :
  getXmppMembersDevices true Sample.two_devices Sample.chat =
  ["bob@xmpp.example/phone"; "bob@xmpp.example/laptop"].
Proof.
  assert (Forall user_op
            [AddXmppMember Sample.chat Sample.bob_phone Sample.bob_anon "@_xmpp_bob:hs";
             AddXmppMember Sample.chat Sample.bob_laptop Sample.bob_anon "@_xmpp_bob:hs"])
    as Hops.
  { repeat (apply Forall_cons_2 || apply Forall_nil_2).
    - exact user_address_bob_phone.
    - exact user_address_bob_laptop. }
  exact (getXmppMembersDevices_concat _ Sample.chat true Hops).
Defined.

Section frames.
Implicit Types (st : registry) (c R : string) (l : list IGatewayMember) (r : nat).

Lemma getMatrixMembers_snd st c :
  (getMatrixMembers st c).*2 = omap as_matrix (room st c).
Proof. apply (members_snd as_matrix id). Qed.

Lemma getXmppMembers_snd st c :
  (getXmppMembers st c).*2 = omap as_xmpp (room st c).
Proof. apply (members_snd as_xmpp id). Qed.

Lemma omap_alter_same {B} (g : IGatewayMember → option B) f r l :
  (∀ u, g (f u) = g u) → omap g (alter f r l) = omap g l.
Proof.
  intros Hg. revert r. induction l as [|a l IH]; intros [|r]; csimpl; [done.. | |].
  - by rewrite Hg.
  - by rewrite IH.
Qed.

Lemma omap_delete_None {B} (g : IGatewayMember → option B) r l u :
  l !! r = Some u → g u = None → omap g (delete r l) = omap g l.
Proof.
  revert r. induction l as [|a l IH]; intros [|r] Hl Hg; csimpl in *; [done.. | |].
  - injection Hl as ->. by rewrite Hg.
  - by rewrite (IH r).
Qed.

Lemma step_other_room st o R : op_room o ≠ R → room (step st o) R = room st R.
Proof.
  intros Hne. destruct o as [c mx anon|c rj anon mx|c mx|c rj]; simpl in *.
  - by apply addMatrixMember_cases.
  - destruct (addXmppMember st c rj anon mx) as [[b st']|] eqn:Hadd; [|done].
    apply addXmppMember_cases in Hadd as [Hother _]. by apply Hother.
  - by apply removeMatrixMember_cases.
  - destruct (to_jid rj) as [j|] eqn:Hto;
      [|by unfold removeXmppMember; rewrite Hto].
    destruct (getXmppMemberByRealJid st c (inr j)) as [[[r x]|]|] eqn:Hfind.
    + destruct (removeXmppMember_found st c rj j r x Hto Hfind)
        as (st' & -> & _ & Hother). by apply Hother.
    + by rewrite (removeXmppMember_absent st c rj j Hto Hfind).
    + unfold getXmppMemberByRealJid in Hfind. done.
Qed.

Lemma step_same_room_kind st o :
  if xmpp_op o
  then omap as_matrix (room (step st o) (op_room o)) =
       omap as_matrix (room st (op_room o))
  else omap as_xmpp (room (step st o) (op_room o)) =
       omap as_xmpp (room st (op_room o)).
Proof.
  destruct o as [c mx anon|c rj anon mx|c mx|c rj]; simpl.
  - destruct (addMatrixMember_cases st c mx anon) as [_ [-> | ->]]; [done|].
    rewrite omap_snoc. simpl. by rewrite app_nil_r.
  - destruct (addXmppMember st c rj anon mx) as [[b st']|] eqn:Hadd; [|done].
    apply addXmppMember_cases in Hadd
      as [_ [(_ & r & x & Hl & ->) | (_ & sd & _ & ->)]].
    + apply omap_alter_same. by intros [m|x0].
    + rewrite omap_snoc. simpl. by rewrite app_nil_r.
  - destruct (removeMatrixMember_cases st c mx) as [_ [-> | (r & m & Hl & ->)]];
      [done|]. by apply (omap_delete_None _ _ _ (Matrix m)).
  - destruct (to_jid rj) as [j|] eqn:Hto;
      [|by unfold removeXmppMember; rewrite Hto].
    destruct (getXmppMemberByRealJid st c (inr j)) as [[[r x]|]|] eqn:Hfind.
    + destruct (removeXmppMember_found st c rj j r x Hto Hfind)
        as (st' & -> & -> & _).
      apply getXmppMemberByRealJid_lookup in Hfind.
      destruct (Js.truthy (resource j) && _).
      * apply omap_alter_same. by intros [m|x0].
      * by apply (omap_delete_None _ _ _ (Xmpp x)).
    + by rewrite (removeXmppMember_absent st c rj j Hto Hfind).
    + unfold getXmppMemberByRealJid in Hfind. done.
Qed.

End frames.

(** X12: what a call leaves alone.  A call changes no room but the one it
    names; an XMPP call ([addXmppMember], [removeXmppMember]) leaves the
    Matrix members of every room as they are, in their order, and a Matrix
    call leaves the XMPP members, with their devices, as they are. *)
Theorem step_frame (st : registry) (o : op) (R : string) :
  (op_room o ≠ R → room (step st o) R = room st R) ∧
  (if xmpp_op o
   then (getMatrixMembers (step st o) R).*2 = (getMatrixMembers st R).*2
   else (getXmppMembers (step st o) R).*2 = (getXmppMembers st R).*2).
Proof.
  split; [apply step_other_room|].
  rewrite !getMatrixMembers_snd, !getXmppMembers_snd.
  destruct (decide (op_room o = R)) as [<-|Hne].
  - apply step_same_room_kind.
  - rewrite (step_other_room st o R Hne). by destruct (xmpp_op o).
Qed.

Lemma step_frame_witness :
  room (step Sample.alice_joined
             (AddXmppMember "other@conf.example" Sample.bob_phone Sample.bob_anon
                            "@_xmpp_bob:hs"))
       Sample.chat =
  room Sample.alice_joined Sample.chat.
Proof.
  apply (step_frame Sample.alice_joined
           (AddXmppMember "other@conf.example" Sample.bob_phone Sample.bob_anon
                          "@_xmpp_bob:hs") Sample.chat).
  discriminate.
Defined.

Section xmpp_round_trip.
Implicit Types (st : registry) (c R : string) (l : list IGatewayMember) (r : nat).

Lemma mutate_mutate_id st R r u f g :
  room st R !! r = Some u → g (f u) = u → mutate g R r (mutate f R r st) = st.
Proof.
  intros Hl Hgf. unfold mutate. apply map_eq. intros c.
  destruct (decide (c = R)) as [->|Hne].
  - rewrite !lookup_alter_eq. unfold room in Hl.
    destruct (st !! R) as [l|]; [|done]. simpl in *. f_equal.
    apply list_eq. intros i. destruct (decide (i = r)) as [->|Hi].
    + rewrite !list_lookup_alter_eq, Hl. simpl. by rewrite Hgf.
    + by rewrite !list_lookup_alter_ne.
  - by rewrite !lookup_alter_ne.
Qed.

Lemma JSSet_remove_absent s (D : list string) : s ∉ D → JSSet.remove s D = D.
Proof.
  intros Hs. apply filter_all, Forall_forall. by intros y Hy ->.
Qed.

Lemma JSSet_remove_add s (D : list string) :
  s ∉ D → JSSet.remove s (JSSet.add s D) = D.
Proof.
  intros Hs. unfold JSSet.add. rewrite decide_False by done.
  unfold JSSet.remove. rewrite filter_app, filter_cons, decide_False by (by intros ?).
  rewrite filter_nil, app_nil_r. by apply JSSet_remove_absent.
Qed.

Lemma removeXmppMember_keep st R rj j r x :
  to_jid rj = Some j →
  getXmppMemberByRealJid st R (inr j) = Some (Some (r, x)) →
  Js.truthy (resource j) = true →
  JSSet.remove (toString j) (devices x) ≠ [] →
  removeXmppMember st R rj =
    Some (false, mutate (devices_delete (toString j)) R r st).
Proof.
  intros Hto Hfind Hres Hleft. unfold removeXmppMember. rewrite Hto.
  cbn -[getXmppMemberByRealJid set_delete mutate]. rewrite Hfind.
  cbn -[set_delete mutate]. rewrite Hres.
  rewrite bool_decide_eq_true_2; [done|].
  intros Hz. by apply length_zero_iff_nil in Hz.
Qed.

End xmpp_round_trip.

(** X13: an XMPP user who is not in the room joins and leaves from the same
    address: the first call answers [true] (first device), the second
    answers [true] (last device), the room holds the members it held before
    in the same order, the other rooms are untouched, and the user is not
    found any more. *)
Theorem addXmppMember_then_remove (st : registry) (R : string) (d anon : JID)
    (mx : string) :
  user_address d →
  getXmppMemberByRealJid st R (inr d) = Some None →
  ∃ st1 st2,
    addXmppMember st R d anon mx = Some (true, st1) ∧
    removeXmppMember st1 R (inr d) = Some (true, st2) ∧
    room st2 R = room st R ∧ (∀ c, c ≠ R → room st2 c = room st c) ∧
    getXmppMemberByRealJid st2 R (inr d) = Some None.
Proof.
  intros [Hwf Hloc]%user_address_wf Hnone.
  pose proof Hnone as Hfresh.
  rewrite getXmppMemberByRealJid_jid in Hnone. injection Hnone as Hnone.
  set (u := mkXmpp anon mx (bare d) [toString d]).
  set (st1 := <[R := room st R ++ [Xmpp u]]> st).
  assert (room st1 R = room st R ++ [Xmpp u]) as Hroom1
    by (unfold st1; by rewrite room_insert, decide_True).
  assert (getXmppMemberByRealJid st1 R (inr d) =
          Some (Some (length (room st R), u))) as Hfind1.
  { apply getXmppMemberByRealJid_iff. rewrite Hroom1. split_and!.
    - by rewrite lookup_app_r, Nat.sub_diag by lia.
    - by apply toString_bare.
    - intros j x' Hj Hl. rewrite lookup_app_l in Hl by done.
      by eapply getXmppMemberByRealJid_None_iff. }
  destruct (removeXmppMember_found st1 R (inr d) d _ _ eq_refl Hfind1)
    as (st2 & Hrem & HR & Hother).
  assert (JSSet.remove (toString d) (devices u) = []) as Hgone.
  { unfold JSSet.remove. simpl. rewrite filter_cons, decide_False by (by intros ?).
    done. }
  rewrite Hgone, andb_false_r in Hrem, HR. simpl in Hrem, HR.
  rewrite Hroom1, delete_length_snoc in HR.
  exists st1, st2. split_and!; try done.
  - rewrite addXmppMember_unfold by done. by rewrite Hnone.
  - intros c Hc. rewrite Hother by done. unfold st1.
    by rewrite room_insert, decide_False.
  - destruct (lookup_same_room st st2 R HR) as (_ & _ & _ & _ & ->). done.
Qed.

Lemma addXmppMember_then_remove_witness :
  ∃ st1 st2,
    addXmppMember ∅ Sample.chat Sample.bob_phone Sample.bob_anon "@_xmpp_bob:hs" =
      Some (true, st1) ∧
    removeXmppMember st1 Sample.chat (inr Sample.bob_phone) = Some (true, st2) ∧
    room st2 Sample.chat = [].
Proof.
  assert (getXmppMemberByRealJid ∅ Sample.chat (inr Sample.bob_phone) = Some None)
    as Hnone by reflexivity.
  destruct (addXmppMember_then_remove ∅ Sample.chat Sample.bob_phone Sample.bob_anon
              "@_xmpp_bob:hs" user_address_bob_phone Hnone)
    as (st1 & st2 & H1 & H2 & H3 & _).
  exists st1, st2. split_and!; [exact H1 | exact H2 | exact H3].
Defined.

(** X14: a further device of a member joins and leaves again: both calls
    answer [false], and the registry is exactly what it was before the two
    calls. *)
Theorem device_joins_then_leaves (st : registry) (R : string) (d anon : JID)
    (mx : string) (r : ref) (x : IGatewayMemberXmpp) :
  user_address d → Js.truthy (resource d) = true →
  getXmppMemberByRealJid st R (inr d) = Some (Some (r, x)) →
  toString d ∉ devices x → devices x ≠ [] →
  ∃ st1, addXmppMember st R d anon mx = Some (false, st1) ∧
         removeXmppMember st1 R (inr d) = Some (false, st).
Proof.
  intros [Hwf Hloc]%user_address_wf Hres Hfind Hnew Hne. unfold ref in *.
  pose proof Hfind as (Hl & Hkey & Hleast)%getXmppMemberByRealJid_iff.
  rewrite getXmppMemberByRealJid_jid in Hfind. injection Hfind as Hfind.
  set (st1 := mutate (devices_add (toString d)) R r st).
  set (x1 := mkXmpp (x_anonymousJid x) (x_matrixId x) (realJid x)
                    (JSSet.add (toString d) (devices x))).
  assert (room st1 R = alter (devices_add (toString d)) r (room st R)) as Hroom1
    by (unfold st1; by rewrite room_mutate, decide_True).
  assert (getXmppMemberByRealJid st1 R (inr d) = Some (Some (r, x1))) as Hfind1.
  { apply getXmppMemberByRealJid_iff. rewrite Hroom1. split_and!.
    - by rewrite list_lookup_alter_eq, Hl.
    - done.
    - intros j x' Hj Hl'. rewrite list_lookup_alter_ne in Hl' by lia.
      by eapply Hleast. }
  exists st1. split.
  - rewrite addXmppMember_unfold by done. by rewrite Hfind.
  - rewrite (removeXmppMember_keep st1 R (inr d) d r x1 eq_refl Hfind1 Hres).
    + f_equal. f_equal. unfold st1.
      apply (mutate_mutate_id st R r (Xmpp x)); [done|]. simpl.
      rewrite JSSet_remove_add by done. by destruct x.
    + simpl. by rewrite JSSet_remove_add.
Qed.

Lemma device_joins_then_leaves_witness :
  ∃ st1, addXmppMember Sample.bob_joined Sample.chat Sample.bob_laptop Sample.bob_anon
                       "@_xmpp_bob:hs" = Some (false, st1) ∧
         removeXmppMember st1 Sample.chat (inr Sample.bob_laptop) =
           Some (false, Sample.bob_joined).
Proof.
  assert (toString Sample.bob_laptop ∉ devices (Sample.bob_member ["bob@xmpp.example/phone"]))
    as Hnew.
  { intros Hin. apply list_elem_of_singleton in Hin. discriminate Hin. }
  assert (devices (Sample.bob_member ["bob@xmpp.example/phone"]) ≠ []) as Hne
    by discriminate.
  exact (device_joins_then_leaves Sample.bob_joined Sample.chat Sample.bob_laptop
           Sample.bob_anon "@_xmpp_bob:hs" 0
           (Sample.bob_member ["bob@xmpp.example/phone"])
           user_address_bob_laptop eq_refl eq_refl Hnew Hne).
Defined.

(** X15: [addMatrixMember] does not look at the anonymous address.  A user
    is added under an address that a member of the room already has, and
    [getMemberByAnonJid] keeps answering the member who had it first. *)
Theorem anonymous_address_first_wins (st : registry) (R U : string) (anon : JID)
    (p : ref * IGatewayMember) :
  getMemberByAnonJid st R (toString anon) = Some p →
  getMatrixMemberByMatrixId st R U = None →
  ∃ st', addMatrixMember st R U anon = (true, st') ∧
    (length (room st R), Matrix (mkMatrix anon U)) ∈ getMembers st' R ∧
    getMemberByAnonJid st' R (toString anon) = Some p.
Proof.
  intros Hp Hnone. unfold addMatrixMember. rewrite Hnone. eexists.
  split; [done|]. split.
  - apply getMembers_elem. rewrite room_insert, decide_True by done.
    by rewrite lookup_app_r, Nat.sub_diag by lia.
  - unfold getMemberByAnonJid, getMembers in *.
    rewrite room_insert, decide_True by done.
    rewrite imap_app. by apply array_find_app_l.
Qed.

Lemma anonymous_address_first_wins_witness :
  ∃ st', addMatrixMember Sample.alice_joined Sample.chat "@mallory:hs" Sample.alice_anon =
           (true, st') ∧
    (1, Matrix (mkMatrix Sample.alice_anon "@mallory:hs")) ∈ getMembers st' Sample.chat ∧
    getMemberByAnonJid st' Sample.chat "chat@conf.example/alice" =
      Some (0, Matrix (mkMatrix Sample.alice_anon Sample.alice)).
Proof.
  exact (anonymous_address_first_wins Sample.alice_joined Sample.chat "@mallory:hs"
           Sample.alice_anon (0, Matrix (mkMatrix Sample.alice_anon Sample.alice))
           eq_refl eq_refl).
Defined.

Section device_list_changes.
Implicit Types (st : registry) (c R : string) (l : list IGatewayMember) (r i : nat).

Lemma getXmppMembersDevices_elem flat st R s :
  s ∈ getXmppMembersDevices flat st R ↔
  ∃ i x, room st R !! i = Some (Xmpp x) ∧ s ∈ devices x.
Proof.
  assert (s ∈ concat (map (λ u, devices u.2) (getXmppMembers st R)) ↔
          ∃ i x, room st R !! i = Some (Xmpp x) ∧ s ∈ devices x) as Hconcat.
  { rewrite elem_of_concat. split.
    - intros (a & Ha & Hs). apply list_elem_of_fmap in Ha as ([i x] & -> & Hin).
      apply getXmppMembers_elem in Hin. by exists i, x.
    - intros (i & x & Hl & Hs). exists (devices x). split; [|done].
      apply list_elem_of_fmap. exists (i, x). split; [done|].
      by apply getXmppMembers_elem. }
  unfold getXmppMembersDevices. destruct flat.
  - by rewrite JSSet_of_list_elem.
  - by rewrite JSSet_of_list_elem, foldl_app_concat.
Qed.

Lemma lookup_alter_cases {A} (f : A → A) (l : list A) r i (y : A) :
  alter f r l !! i = Some y ↔
  (i ≠ r ∧ l !! i = Some y) ∨ (i = r ∧ ∃ x, l !! r = Some x ∧ y = f x).
Proof.
  destruct (decide (i = r)) as [->|Hne].
  - rewrite list_lookup_alter_eq, fmap_Some. split.
    + intros (x & Hx & ->). right. eauto.
    + intros [[? _]|[_ (x & Hx & ->)]]; [done | eauto].
  - rewrite list_lookup_alter_ne by done. split; [by left|].
    by intros [[_ ?]|[? _]].
Qed.

Lemma elem_of_delete_lookup {A} (l : list A) r (y : A) :
  y ∈ delete r l ↔ ∃ i, i ≠ r ∧ l !! i = Some y.
Proof.
  rewrite list_elem_of_lookup. split.
  - intros [i Hi]. rewrite list_lookup_delete in Hi. case_decide.
    + exists i. split; [lia | done].
    + exists (S i). split; [lia | done].
  - intros (i & Hne & Hi). destruct (decide (i < r)).
    + exists i. by rewrite list_lookup_delete_lt.
    + exists (pred i). rewrite list_lookup_delete_ge by lia.
      by replace (S (pred i)) with i by lia.
Qed.

Lemma omap_key_unique (k : IGatewayMember → option string) l i r u v K :
  NoDup (omap k l) → l !! i = Some u → l !! r = Some v →
  k u = Some K → k v = Some K → i = r.
Proof.
  revert i r. induction l as [|a l IH]; intros i r Hnd Hi Hr Hu Hv; [done|].
  csimpl in Hnd. destruct i as [|i], r as [|r]; simpl in *; [done | | |].
  - injection Hi as ->. rewrite Hu in Hnd. apply NoDup_cons in Hnd as [Hfresh _].
    destruct Hfresh. by eapply omap_key_elem.
  - injection Hr as ->. rewrite Hv in Hnd. apply NoDup_cons in Hnd as [Hfresh _].
    destruct Hfresh. by eapply omap_key_elem.
  - f_equal. apply IH; try done.
    destruct (k a); [by apply NoDup_cons in Hnd as [_ ?] | done].
Qed.

End device_list_changes.

(** X16: what [addXmppMember] does to the device addresses of the room:
    after a call that does not throw, they are the addresses listed before
    and the printed address of the call. *)
Theorem addXmppMember_devices (st st' : registry) (R : string) (d anon : JID)
    (mx : string) (b flat : bool) (s : string) :
  addXmppMember st R d anon mx = Some (b, st') →
  s ∈ getXmppMembersDevices flat st' R ↔
  s ∈ getXmppMembersDevices flat st R ∨ s = toString d.
Proof.
  intros [_ Hcases]%addXmppMember_cases. rewrite !getXmppMembersDevices_elem.
  destruct Hcases as [(_ & r & x & Hl & ->) | (_ & sd & _ & ->)].
  - split.
    + intros (i & x' & [[Hne Hi] | [-> (u & Hu & Hx')]]%lookup_alter_cases & Hs).
      * left. by exists i, x'.
      * rewrite Hl in Hu. injection Hu as <-. simpl in Hx'. injection Hx' as ->.
        simpl in Hs. apply JSSet_add_elem in Hs as [Hs | ->]; [|by right].
        left. by exists r, x.
    + intros [(i & x' & Hi & Hs) | ->].
      * destruct (decide (i = r)) as [->|Hne].
        -- rewrite Hl in Hi. injection Hi as <-.
           eexists r, _. split.
           ++ apply lookup_alter_cases. right. split; [done|]. by exists (Xmpp x).
           ++ simpl. apply JSSet_add_elem. by left.
        -- exists i, x'. split; [|done]. apply lookup_alter_cases. by left.
      * eexists r, _. split.
        -- apply lookup_alter_cases. right. split; [done|]. by exists (Xmpp x).
        -- simpl. apply JSSet_add_elem. by right.
  - split.
    + intros (i & x' & [Hi | [_ Hi]]%lookup_app_Some & Hs).
      * left. by exists i, x'.
      * right. destruct (i - length (room st R)) as [|n]; [|done].
        simpl in Hi. injection Hi as <-. simpl in Hs.
        by apply list_elem_of_singleton in Hs.
    + intros [(i & x' & Hi & Hs) | ->].
      * exists i, x'. split; [|done]. apply lookup_app_Some. by left.
      * eexists (length (room st R)), _. split.
        -- apply lookup_app_Some. right. split; [done|].
           by rewrite Nat.sub_diag.
        -- simpl. by left.
Qed.

Lemma addXmppMember_devices_witness :
  "bob@xmpp.example/laptop" ∈ getXmppMembersDevices true Sample.two_devices Sample.chat ↔
  "bob@xmpp.example/laptop" ∈ getXmppMembersDevices true Sample.bob_joined Sample.chat ∨
  "bob@xmpp.example/laptop" = toString Sample.bob_laptop.
Proof.
  assert (addXmppMember Sample.bob_joined Sample.chat Sample.bob_laptop Sample.bob_anon
                        "@_xmpp_bob:hs" = Some (false, Sample.two_devices)) as Hadd
    by reflexivity.
  exact (addXmppMember_devices Sample.bob_joined Sample.two_devices Sample.chat
           Sample.bob_laptop Sample.bob_anon "@_xmpp_bob:hs" false true
           "bob@xmpp.example/laptop" Hadd).
Defined.

(** X17: in a registry built by the calls, a device that leaves is not
    addressed any more and nobody else is dropped: after [removeXmppMember]
    with the full address of a user, the device addresses of the room are
    those listed before without that address. *)
Theorem removeXmppMember_device_list (ops : list op) (R : string) (j : JID)
    (b flat : bool) (st' : registry) (s : string) :
  Forall user_op ops → user_address j → Js.truthy (resource j) = true →
  removeXmppMember (run ops) R (inr j) = Some (b, st') →
  s ∈ getXmppMembersDevices flat st' R ↔
  s ∈ getXmppMembersDevices flat (run ops) R ∧ s ≠ toString j.
Proof.
  intros Hops [Hwf Hloc]%user_address_wf Hres Hrem.
  pose proof (run_devices_owned ops R Hops) as Hown. rewrite Forall_forall in Hown.
  destruct (foldl_step_unique ops ∅ Hops unique_keys_empty R) as [_ Huniq].
  fold (run ops) in Huniq.
  assert (∀ i x, room (run ops) R !! i = Some (Xmpp x) → toString j ∈ devices x →
                 toString (realJid x) = Jid.stripped j) as Hholder.
  { intros i x Hi Hs. apply list_elem_of_lookup_2 in Hi.
    destruct (Hown (Xmpp x) Hi) as [_ Hdev].
    destruct (Hdev _ Hs) as (d & [Hwd Hld]%user_address_wf & <- & Hp).
    apply toString_inj in Hp as ->; [|done..]. by apply toString_bare. }
  rewrite !getXmppMembersDevices_elem.
  destruct (getXmppMemberByRealJid (run ops) R (inr j)) as [[[r x]|]|] eqn:Hfind.
  - destruct (removeXmppMember_found (run ops) R (inr j) j r x eq_refl Hfind)
      as (st2 & Hrem2 & HR & _).
    rewrite Hrem in Hrem2. injection Hrem2 as -> <-. rewrite HR. clear HR.
    apply getXmppMemberByRealJid_iff in Hfind as (Hl & Hkey & _).
    assert (∀ i x', i ≠ r → room (run ops) R !! i = Some (Xmpp x') →
                    toString j ∉ devices x') as Hothers.
    { intros i x' Hne Hi Hs. apply Hne.
      apply (omap_key_unique xmpp_key (room (run ops) R) i r (Xmpp x') (Xmpp x)
               (Jid.stripped j)); try done.
      - unfold xmpp_key. simpl. f_equal. by eapply Hholder.
      - unfold xmpp_key. simpl. by f_equal. }
    rewrite Hres. simpl. case_bool_decide as Hlen; simpl.
    + split.
      * intros (i & x' & [[Hne Hi] | [-> (u & Hu & Hx')]]%lookup_alter_cases & Hs).
        -- split; [by exists i, x'|]. intros ->. by eapply Hothers.
        -- unfold ref in *. rewrite Hl in Hu. injection Hu as <-.
           simpl in Hx'. injection Hx' as ->. simpl in Hs.
           apply list_elem_of_filter in Hs as [Hne Hs]. split; [|done].
           by exists r, x.
      * intros [(i & x' & Hi & Hs) Hne]. destruct (decide (i = r)) as [->|Hir].
        -- unfold ref in *. rewrite Hl in Hi. injection Hi as <-.
           eexists r, _. split.
           ++ apply lookup_alter_cases. right. split; [done|]. by exists (Xmpp x).
           ++ simpl. by apply list_elem_of_filter.
        -- exists i, x'. split; [|done]. apply lookup_alter_cases. by left.
    + apply length_zero_iff_nil in Hlen. split.
      * intros (i & x' & Hi & Hs).
        apply list_elem_of_lookup_2, elem_of_delete_lookup in Hi as (i' & Hne & Hi').
        split; [by exists i', x'|]. intros ->. by eapply Hothers.
      * intros [(i & x' & Hi & Hs) Hne]. destruct (decide (i = r)) as [->|Hir].
        -- unfold ref in *. rewrite Hl in Hi. injection Hi as <-.
           assert (s ∈ JSSet.remove (toString j) (devices x)) as Hin
             by by apply list_elem_of_filter.
           rewrite Hlen in Hin. by apply not_elem_of_nil in Hin.
        -- assert (Xmpp x' ∈ delete r (room (run ops) R)) as Hin
             by (apply elem_of_delete_lookup; by exists i).
           apply list_elem_of_lookup_1 in Hin as [i' Hi']. by exists i', x'.
  - rewrite (removeXmppMember_absent (run ops) R (inr j) j eq_refl Hfind) in Hrem.
    injection Hrem as <- <-. split; [|by intros [? _]].
    intros (i & x' & Hi & Hs). split; [by exists i, x'|]. intros ->.
    eapply getXmppMemberByRealJid_None_iff; [done.. |]. by eapply Hholder.
  - unfold getXmppMemberByRealJid in Hfind. done.
Qed.

Lemma removeXmppMember_device_list_witness :
  ∃ st', removeXmppMember Sample.two_devices Sample.chat (inr Sample.bob_phone) =
           Some (false, st') ∧
    ("bob@xmpp.example/laptop" ∈ getXmppMembersDevices true st' Sample.chat ↔
     "bob@xmpp.example/laptop" ∈ getXmppMembersDevices true Sample.two_devices Sample.chat ∧
     "bob@xmpp.example/laptop" ≠ toString Sample.bob_phone).
Proof.
  assert (Forall user_op
            [AddXmppMember Sample.chat Sample.bob_phone Sample.bob_anon "@_xmpp_bob:hs";
             AddXmppMember Sample.chat Sample.bob_laptop Sample.bob_anon "@_xmpp_bob:hs"])
    as Hops.
  { repeat (apply Forall_cons_2 || apply Forall_nil_2).
    - exact user_address_bob_phone.
    - exact user_address_bob_laptop. }
  assert (∃ st', removeXmppMember Sample.two_devices Sample.chat (inr Sample.bob_phone) =
                 Some (false, st')) as [st' Hrem] by (eexists; reflexivity).
  exists st'. split; [exact Hrem|].
  exact (removeXmppMember_device_list _ Sample.chat Sample.bob_phone false true st'
           "bob@xmpp.example/laptop" Hops user_address_bob_phone eq_refl Hrem).
Defined.

(** * Further properties of the stanza builders *)

Section decoding.
Implicit Types (c : ascii) (s r : string).

Lemma decode_encode_unit c r :
  Entity.decode (He.encode (String c EmptyString) +:+ r) = String c (Entity.decode r).
Proof. by destruct c as [[] [] [] [] [] [] [] []]. Qed.

Lemma decode_encode s : Entity.decode (He.encode s) = s.
Proof.
  induction s as [|c s IH]; [done |].
  by rewrite encode_cons, decode_encode_unit, IH.
Qed.

Lemma encode_inj s1 s2 : He.encode s1 = He.encode s2 → s1 = s2.
Proof.
  intros Heq. by rewrite <- (decode_encode s1), Heq, decode_encode.
Qed.

End decoding.

(** X18: the encoder of the setters loses nothing.  Decoding the character
    references of an encoded text gives the text back, so two values are
    stored as the same text only when they are the same value; what the
    getters of a stanza answer decodes to the [from], [to] and [id] the
    stanza was built with. *)
Theorem encode_lossless :
  (∀ s, Entity.decode (He.encode s) = s) ∧
  (∀ s1 s2, He.encode s1 = He.encode s2 → s1 = s2) ∧
  (∀ from to id,
     let b := StzaBase_new from to id in
     Entity.decode (get_from b) = from ∧ Entity.decode (get_to b) = to ∧
     Entity.decode <$> get_id b = if Js.truthy_opt id then id else None).
Proof.
  split_and!.
  - apply decode_encode.
  - apply encode_inj.
  - intros from to id b. subst b.
    rewrite get_from_new, get_to_new, get_id_new. split_and!.
    + apply decode_encode.
    + apply decode_encode.
    + destruct id as [v|]; [|done]. simpl.
      destruct (Js.truthy v); [|done]. simpl. by rewrite decode_encode.
Qed.

Lemma encode_lossless_witness :
  Entity.decode (He.encode "R&D") = "R&D" ∧
  (He.encode "R&D" = He.encode "R&D" → "R&D" = "R&D").
Proof.
  destruct encode_lossless as (Hdec & Hinj & _).
  split; [exact (Hdec "R&D") | exact (Hinj "R&D" "R&D")].
Defined.

(** X19: the id of a message goes through the setter twice (once with the
    id given, once with the id read back), so it has to be decoded twice to
    give the id back; decoding it once gives the id only when the id holds
    nothing the encoder rewrites. *)
Theorem message_id_encoded_twice (uuid from to : string)
    (idOrMsg : option (string + IBasicProtocolMessage)) (mt : option string)
    (v : string) :
  match idOrMsg with
  | Some (inl s) => Some s
  | Some (inr msg) => msg_id msg
  | None => None
  end = Some v →
  Js.truthy v = true →
  let m := StzaMessage_new uuid from to idOrMsg mt in
  Entity.decode <$> (Entity.decode <$> get_id (m_base m)) = Some v ∧
  (Entity.decode <$> get_id (m_base m) = Some v ↔ He.encode v = v).
Proof.
  intros Hgiven Hv m. subst m. rewrite message_get_id, Hgiven. simpl.
  rewrite Hv. simpl. rewrite !decode_encode. split; [done|].
  split; [by intros [= ->] | by intros ->].
Qed.

Lemma message_id_encoded_twice_witness :
  let m := StzaMessage_new "u-1" "a@x" "b@y" (Some (inl "R&D")) None in
  Entity.decode <$> (Entity.decode <$> get_id (m_base m)) = Some "R&D" ∧
  (Entity.decode <$> get_id (m_base m) = Some "R&D" ↔ He.encode "R&D" = "R&D").
Proof.
  exact (message_id_encoded_twice "u-1" "a@x" "b@y" (Some (inl "R&D")) None "R&D"
           eq_refl eq_refl).
Defined.

(** X20: the getter [xml] of a message writes [body], and nothing else:
    the addresses, the id, the [html] block, the attachments and the type
    are as they were, and a second rendering gives the same text and leaves
    the stanza as the first left it. *)
Theorem message_xml_twice (m : StzaMessage) :
  StzaMessage_xml (StzaMessage_xml m).2 = StzaMessage_xml m ∧
  m_base (StzaMessage_xml m).2 = m_base m ∧
  html (StzaMessage_xml m).2 = html m ∧
  attachments (StzaMessage_xml m).2 = attachments m ∧
  messageType (StzaMessage_xml m).2 = messageType m.
Proof.
  unfold StzaMessage_xml, message_type_attr.
  destruct m as [b h bd atts mt]. simpl.
  by destruct atts as [|a [|a' atts]].
Qed.

(** X21: the subject of a subject message is copied into the text as it
    is, without encoding: a reader of the [<subject>] element gets the
    subject given, character for character, when it holds no ['<']. *)
Theorem subject_not_encoded (from to : string) (id : option string) (subj : string) :
  Js.occurs "<" subj = false →
  ∃ attrs rest,
    Xml.read_open "message" ["from"; "to"; "id"] He.dquote
      (StzaMessageSubject_xml (StzaMessageSubject_new from to id (Some subj))) =
      Some (attrs, rest) ∧
    (r ← Xml.strip_prefix " type='groupchat'>" rest; Xml.read_element "subject" r) =
      Some (subj, "</message>").
Proof.
  intros Hlt. eexists _, _. split; [apply subject_open|].
  simpl. read_text. done.
Qed.

Lemma subject_not_encoded_witness :
  ∃ attrs rest,
    Xml.read_open "message" ["from"; "to"; "id"] He.dquote
      (StzaMessageSubject_xml
         (StzaMessageSubject_new "chat@conf.example" "bob@xmpp.example/phone"
                                 (Some "s1") (Some "Q&A"))) =
      Some (attrs, rest) ∧
    (r ← Xml.strip_prefix " type='groupchat'>" rest; Xml.read_element "subject" r) =
      Some ("Q&A", "</message>").
Proof.
  exact (subject_not_encoded "chat@conf.example" "bob@xmpp.example/phone"
           (Some "s1") "Q&A" eq_refl).
Defined.

(** X22: a part presence carries no id and no [<x>] child, whatever it is
    built with: its text is the start tag with the two encoded addresses
    and the type [unavailable], and the end tag. *)
Theorem presence_part_xml (from to : string) :
  StzaPresence_xml (StzaPresencePart_new from to) =
  "<presence from=" +:+ dq +:+ He.encode from +:+ dq +:+ " to=" +:+ dq
  +:+ He.encode to +:+ dq +:+ " type='unavailable'></presence>".
Proof.
  unfold StzaPresence_xml, StzaPresencePart_new. cbn [p_base includeXContent
    presenceType p_class presenceContent]. 
  rewrite (set_id_falsy None) by done.
  rewrite get_from_new, get_to_new, get_id_new. simpl. done.
Qed.

(** X23: a feature that is not in the set is rendered after everything the
    query held: the identities and the features added before it. *)
Theorem feature_add_appends (h : heap) (s : StzaIqDiscoInfo) (f : string) :
  f ∉ feature s →
  queryContent h (feature_add f s) =
  queryContent h s +:+ "<feature var='" +:+ f +:+ "'/>".
Proof.
  intros Hf. unfold queryContent, featureContent, identityContent, feature_add.
  cbn [feature identity]. unfold JSSet.add. rewrite decide_False by done.
  rewrite foldl_app. cbn [foldl]. by rewrite !append_assoc.
Qed.

Lemma feature_add_appends_witness :
  queryContent Sample.disco1.1 (feature_add "http://jabber.org/protocol/muc" Sample.disco1.2) =
  queryContent Sample.disco1.1 Sample.disco1.2 +:+
  "<feature var='http://jabber.org/protocol/muc'/>".
Proof.
  apply (feature_add_appends Sample.disco1.1 Sample.disco1.2
           "http://jabber.org/protocol/muc").
  apply not_elem_of_nil.
Defined.
